(** * Expense Split Backend: schemas and request handlers

    A shallow embedding of [src/schemas.py] (the pydantic models [Appuser],
    [Group], [SplitItem], [Expense]) and of [src/main.py] (the helpers and
    handlers [serialize_doc], [create_group], [create_expense]), followed
    by the properties the specification states about them.

    Python [float] is IEEE 754 binary64: it is modelled by Rocq's primitive
    floats, and the comparisons of the code are the primitive comparisons.
    Python [dict] objects are finite maps ([gmap]); where a dict is mutated
    ([serialize_doc]) the objects live in an explicit heap. *)

From Stdlib Require Import Floats.
From stdpp Require Import gmap strings list fin_maps.

Local Open Scope string_scope.
Local Open Scope list_scope.

#[local] Set Warnings "-clear-no-such-hyp".
#[local] Set Warnings "-register-all".

(** ** Results and exceptions *)

Inductive result (E A : Type) : Type :=
  | Ok (a : A)
  | Err (e : E).
Arguments Ok {E A} a.
Arguments Err {E A} e.

(** One step of the path to a field inside a validated value
    ([("splits", 0, "share")] in pydantic's error report). *)
Inductive loc_item :=
  | Field (name : string)
  | Index (i : nat).

(** The constraint a field failed. *)
Inductive constraint :=
  | Missing                (* a required field was not supplied *)
  | NotAnEmail             (* EmailStr rejected the text *)
  | NotInLiteral           (* outside Literal["equal", "exact", "percentage"] *)
  | NotGreaterThan0        (* gt=0 *)
  | NotGreaterEqual0.      (* ge=0 *)

Record error_detail := { loc : list loc_item; violated : constraint }.

(** pydantic reports every failing field of a construction at once. *)
Definition error_list := list error_detail.

Definition errors_of {A} (r : result error_list A) : error_list :=
  match r with
  | Ok _ => []
  | Err es => es
  end.

(** Errors found inside a nested field are reported under that field. *)
Definition under (p : loc_item) (es : error_list) : error_list :=
  map (λ e, {| loc := p :: loc e; violated := violated e |}) es.

Definition nested {A} (p : loc_item) (r : result error_list A)
  : result error_list A :=
  match r with
  | Ok a => Ok a
  | Err es => Err (under p es)
  end.

(** ** Field validators *)

(** [EmailStr] defers to the [email-validator] package, which either rejects
    the text or returns its normalised form.  The package is outside the
    repository, so it is an interface here; validating a normalised address
    again returns it unchanged. *)
Class EmailValidator := {
  validate_email : string → option string;
  validate_email_idem s s' :
    validate_email s = Some s' → validate_email s' = Some s'
}.

(** A required [str] field: [Field(...)]. *)
Definition required_str (name : string) (v : option string)
  : result error_list string :=
  match v with
  | Some s => Ok s
  | None => Err [ {| loc := [Field name]; violated := Missing |} ]
  end.

(** A required [EmailStr] field. *)
Definition required_email `{EmailValidator} (name : string) (v : option string)
  : result error_list string :=
  match v with
  | None => Err [ {| loc := [Field name]; violated := Missing |} ]
  | Some s =>
      match validate_email s with
      | Some s' => Ok s'
      | None => Err [ {| loc := [Field name]; violated := NotAnEmail |} ]
      end
  end.

(** A required [float] field with [gt=0]: the test is Python's [v > 0]. *)
Definition required_float_gt0 (name : string) (v : option float)
  : result error_list float :=
  match v with
  | None => Err [ {| loc := [Field name]; violated := Missing |} ]
  | Some x =>
      if (0 <? x)%float then Ok x
      else Err [ {| loc := [Field name]; violated := NotGreaterThan0 |} ]
  end.

(** A required [float] field without bounds. *)
Definition required_float (name : string) (v : option float)
  : result error_list float :=
  match v with
  | None => Err [ {| loc := [Field name]; violated := Missing |} ]
  | Some x => Ok x
  end.

(** A [float] field with [ge=0] and a default, which pydantic does not
    validate: the test is Python's [v >= 0]. *)
Definition default_float_ge0 (name : string) (d : float) (v : option float)
  : result error_list float :=
  match v with
  | None => Ok d
  | Some x =>
      if (0 <=? x)%float then Ok x
      else Err [ {| loc := [Field name]; violated := NotGreaterEqual0 |} ]
  end.

(** A naive [datetime.datetime] value. *)
Record datetime := {
  year : N; month : N; day : N;
  hour : N; minute : N; second : N; microsecond : N
}.

(** ** schemas.py *)

Module SplitItem.

(** [Literal["equal", "exact", "percentage"]] *)
Inductive split_type := equal | exact | percentage.

Definition split_type_of_string (s : string) : option split_type :=
  if decide (s = "equal") then Some equal
  else if decide (s = "exact") then Some exact
  else if decide (s = "percentage") then Some percentage
  else None.

Record t := { user : string; type : split_type; share : float }.

(** The keyword arguments of a construction; [None] is an argument that
    was not supplied. *)
Record kwargs := {
  kw_user : option string;
  kw_type : option string;
  kw_share : option float
}.

(** An element supplied for a [List[SplitItem]] field is either a
    [SplitItem] instance, taken as it is, or a mapping of keyword
    arguments, from which a [SplitItem] is constructed. *)
Inductive input :=
  | Instance (s : t)
  | Mapping (a : kwargs).

(** [type] has the default ["equal"]; a supplied text must be one of the
    three literals. *)
Definition validate_type (v : option string) : result error_list split_type :=
  match v with
  | None => Ok equal
  | Some s =>
      match split_type_of_string s with
      | Some ty => Ok ty
      | None => Err [ {| loc := [Field "type"]; violated := NotInLiteral |} ]
      end
  end.

Section new.
Context `{EmailValidator}.

Definition new (a : kwargs) : result error_list t :=
  let r_user := required_email "user" (kw_user a) in
  let r_type := validate_type (kw_type a) in
  let r_share := default_float_ge0 "share" 0%float (kw_share a) in
  match r_user, r_type, r_share with
  | Ok u, Ok ty, Ok sh => Ok {| user := u; type := ty; share := sh |}
  | _, _, _ => Err (errors_of r_user ++ errors_of r_type ++ errors_of r_share)
  end.

Definition validate (i : input) : result error_list t :=
  match i with
  | Instance s => Ok s
  | Mapping a => new a
  end.

(** [List[SplitItem]]: every element is validated, the errors of element
    [i] are reported under index [i]. *)
Fixpoint validate_list_from (i : nat) (l : list input)
  : result error_list (list t) :=
  match l with
  | [] => Ok []
  | x :: l' =>
      let r := validate x in
      let rs := validate_list_from (S i) l' in
      match r, rs with
      | Ok s, Ok ss => Ok (s :: ss)
      | _, _ => Err (under (Index i) (errors_of r) ++ errors_of rs)
      end
  end.

Definition validate_list (l : list input) : result error_list (list t) :=
  validate_list_from 0 l.

End new.
End SplitItem.

(** [List[EmailStr]] *)
Fixpoint validate_emails_from `{EmailValidator} (i : nat) (l : list string)
  : result error_list (list string) :=
  match l with
  | [] => Ok []
  | x :: l' =>
      let r := match validate_email x with
               | Some x' => Ok x'
               | None => Err [ {| loc := [Index i]; violated := NotAnEmail |} ]
               end in
      let rs := validate_emails_from (S i) l' in
      match r, rs with
      | Ok s, Ok ss => Ok (s :: ss)
      | _, _ => Err (errors_of r ++ errors_of rs)
      end
  end.

Definition required_emails `{EmailValidator} (name : string)
    (v : option (list string)) : result error_list (list string) :=
  match v with
  | None => Err [ {| loc := [Field name]; violated := Missing |} ]
  | Some l => nested (Field name) (validate_emails_from 0 l)
  end.

Module Appuser.

Record t := {
  name : string;
  email : string;
  avatar_url : option string;
  default_currency : string;
  locale : string
}.

Record kwargs := {
  kw_name : option string;
  kw_email : option string;
  kw_avatar_url : option string;
  kw_default_currency : option string;
  kw_locale : option string
}.

Definition new `{EmailValidator} (a : kwargs) : result error_list t :=
  let r_name := required_str "name" (kw_name a) in
  let r_email := required_email "email" (kw_email a) in
  match r_name, r_email with
  | Ok n, Ok e =>
      Ok {| name := n; email := e; avatar_url := kw_avatar_url a;
            default_currency := default "USD" (kw_default_currency a);
            locale := default "en" (kw_locale a) |}
  | _, _ => Err (errors_of r_name ++ errors_of r_email)
  end.

End Appuser.

Module Group.

Record t := {
  name : string;
  created_by : string;
  members : list string;
  default_currency : string;
  image_url : option string
}.

Record kwargs := {
  kw_name : option string;
  kw_created_by : option string;
  kw_members : option (list string);
  kw_default_currency : option string;
  kw_image_url : option string
}.

Definition new `{EmailValidator} (a : kwargs) : result error_list t :=
  let r_name := required_str "name" (kw_name a) in
  let r_created_by := required_email "created_by" (kw_created_by a) in
  let r_members := required_emails "members" (kw_members a) in
  match r_name, r_created_by, r_members with
  | Ok n, Ok c, Ok ms =>
      Ok {| name := n; created_by := c; members := ms;
            default_currency := default "USD" (kw_default_currency a);
            image_url := kw_image_url a |}
  | _, _, _ =>
      Err (errors_of r_name ++ errors_of r_created_by ++ errors_of r_members)
  end.

End Group.

Module Expense.

Record t := {
  group_id : string;
  description : string;
  amount : float;
  currency : string;
  paid_by : string;
  date : option datetime;
  splits : list SplitItem.t;
  notes : option string
}.

Record kwargs := {
  kw_group_id : option string;
  kw_description : option string;
  kw_amount : option float;
  kw_currency : option string;
  kw_paid_by : option string;
  kw_date : option datetime;
  kw_splits : option (list SplitItem.input);
  kw_notes : option string
}.

(** [splits] has [default_factory=list]. *)
Definition validate_splits `{EmailValidator}
    (v : option (list SplitItem.input)) : result error_list (list SplitItem.t) :=
  match v with
  | None => Ok []
  | Some l => nested (Field "splits") (SplitItem.validate_list l)
  end.

Definition new `{EmailValidator} (a : kwargs) : result error_list t :=
  let r_group_id := required_str "group_id" (kw_group_id a) in
  let r_description := required_str "description" (kw_description a) in
  let r_amount := required_float_gt0 "amount" (kw_amount a) in
  let r_paid_by := required_email "paid_by" (kw_paid_by a) in
  let r_splits := validate_splits (kw_splits a) in
  match r_group_id, r_description, r_amount, r_paid_by, r_splits with
  | Ok g, Ok d, Ok am, Ok p, Ok ss =>
      Ok {| group_id := g; description := d; amount := am;
            currency := default "USD" (kw_currency a); paid_by := p;
            date := kw_date a; splits := ss; notes := kw_notes a |}
  | _, _, _, _, _ =>
      Err (errors_of r_group_id ++ errors_of r_description
           ++ errors_of r_amount ++ errors_of r_paid_by ++ errors_of r_splits)
  end.

End Expense.

(** ** main.py *)

(** The exceptions a handler can leave with: the [HTTPException] it raises
    itself, and pydantic's [ValidationError] from a model construction. *)
Inductive exn :=
  | HTTPException (status_code : Z) (detail : string)
  | ValidationError (errors : error_list).

(** A computation over a state [S] that returns or raises.  An exception
    does not undo what was done to the state before it. *)
Definition M (S A : Type) : Type := S → result exn A * S.

Definition raise {S A} (e : exn) : M S A := λ s, (Err e, s).

#[global] Instance M_ret {S} : MRet (M S) := λ A (a : A) s, (Ok a, s).

#[global] Instance M_bind {S} : MBind (M S) := λ A B (k : A → M S B) (m : M S A) s,
  match m s with
  | (Ok a, s') => k a s'
  | (Err e, s') => (Err e, s')
  end.

(** A model construction inside a handler: a failed validation is raised. *)
Definition construct {S A} (r : result error_list A) : M S A :=
  match r with
  | Ok a => mret a
  | Err es => raise (ValidationError es)
  end.

(** [for x in l: body x] *)
Fixpoint for_each {S A} (l : list A) (body : A → M S unit) : M S unit :=
  match l with
  | [] => mret ()
  | x :: l' => body x ;; for_each l' body
  end.

(** *** The document store *)

Inductive entity :=
  | GroupEntity (g : Group.t)
  | ExpenseEntity (e : Expense.t).

Record stored := {
  collection : string;
  stored_id : nat;
  stored_entity : entity
}.

Abbreviation Store := (list stored).

(** Modelled from the spec: [create_document] of the module [database],
    which is not among the sources.  The store keeps the entity it is given
    under the collection name, with all its fields, and returns a generated
    identifier; here the identifier is the number of documents stored
    before. *)
Definition create_document (collection_name : string) (data : entity)
  : M Store nat :=
  λ st,
    let new_id := length st in
    (Ok new_id,
     st ++ [ {| collection := collection_name; stored_id := new_id;
                stored_entity := data |} ]).

(** *** Python dicts that keep insertion order *)

(** [d[k] = v]: an existing key keeps its place, a new key goes last. *)
Fixpoint odict_setitem {V} (k : string) (v : V) (d : list (string * V))
  : list (string * V) :=
  match d with
  | [] => [(k, v)]
  | (k', v') :: d' =>
      if decide (k = k') then (k, v) :: d'
      else (k', v') :: odict_setitem k v d'
  end.

(** [dict.fromkeys(keys)]: every key is set to [None], in order. *)
Definition dict_fromkeys (keys : list string) : list (string * unit) :=
  foldl (λ d k, odict_setitem k () d) [] keys.

(** [list(d)]: the keys in insertion order. *)
Definition list_of_dict {V} (d : list (string * V)) : list string := d.*1.

(** [a or b] on lists: [a] unless it is empty. *)
Definition list_or {A} (a b : list A) : list A :=
  match a with
  | [] => b
  | _ :: _ => a
  end.

(** *** Groups *)

Module CreateGroup.

Record t := {
  name : string;
  created_by : string;
  members : list string;
  default_currency : string;
  image_url : option string
}.

Record kwargs := {
  kw_name : option string;
  kw_created_by : option string;
  kw_members : option (list string);
  kw_default_currency : option string;
  kw_image_url : option string
}.

Definition new `{EmailValidator} (a : kwargs) : result error_list t :=
  let r_name := required_str "name" (kw_name a) in
  let r_created_by := required_email "created_by" (kw_created_by a) in
  let r_members := required_emails "members" (kw_members a) in
  match r_name, r_created_by, r_members with
  | Ok n, Ok c, Ok ms =>
      Ok {| name := n; created_by := c; members := ms;
            default_currency := default "USD" (kw_default_currency a);
            image_url := kw_image_url a |}
  | _, _, _ =>
      Err (errors_of r_name ++ errors_of r_created_by ++ errors_of r_members)
  end.

End CreateGroup.

(** The member list [create_group] builds:
    [list(dict.fromkeys([*(payload.members or []), payload.created_by]))]. *)
Definition normalize_members (created_by : string) (members : list string)
  : list string :=
  list_of_dict (dict_fromkeys (list_or members [] ++ [created_by])).

Definition create_group `{EmailValidator} (payload : CreateGroup.t)
  : M Store nat :=
  let members :=
    normalize_members (CreateGroup.created_by payload)
                      (CreateGroup.members payload) in
  group ← construct (Group.new {|
      Group.kw_name := Some (CreateGroup.name payload);
      Group.kw_created_by := Some (CreateGroup.created_by payload);
      Group.kw_members := Some members;
      Group.kw_default_currency := Some (CreateGroup.default_currency payload);
      Group.kw_image_url := CreateGroup.image_url payload |}) ;
  group_id ← create_document "group" (GroupEntity group) ;
  mret group_id.

(** *** Expenses *)

Module CreateExpense.

Record t := {
  group_id : string;
  description : string;
  amount : float;
  currency : string;
  paid_by : string;
  date : option string;
  splits : list SplitItem.t;
  notes : option string
}.

Record kwargs := {
  kw_group_id : option string;
  kw_description : option string;
  kw_amount : option float;
  kw_currency : option string;
  kw_paid_by : option string;
  kw_date : option string;
  kw_splits : option (list SplitItem.input);
  kw_notes : option string
}.

(** [splits] reuses the annotation of [Expense.splits] but not its default:
    the field is required. *)
Definition required_splits `{EmailValidator}
    (v : option (list SplitItem.input)) : result error_list (list SplitItem.t) :=
  match v with
  | None => Err [ {| loc := [Field "splits"]; violated := Missing |} ]
  | Some l => nested (Field "splits") (SplitItem.validate_list l)
  end.

Definition new `{EmailValidator} (a : kwargs) : result error_list t :=
  let r_group_id := required_str "group_id" (kw_group_id a) in
  let r_description := required_str "description" (kw_description a) in
  let r_amount := required_float "amount" (kw_amount a) in
  let r_paid_by := required_email "paid_by" (kw_paid_by a) in
  let r_splits := required_splits (kw_splits a) in
  match r_group_id, r_description, r_amount, r_paid_by, r_splits with
  | Ok g, Ok d, Ok am, Ok p, Ok ss =>
      Ok {| group_id := g; description := d; amount := am;
            currency := default "USD" (kw_currency a); paid_by := p;
            date := kw_date a; splits := ss; notes := kw_notes a |}
  | _, _, _, _, _ =>
      Err (errors_of r_group_id ++ errors_of r_description
           ++ errors_of r_amount ++ errors_of r_paid_by ++ errors_of r_splits)
  end.

End CreateExpense.

(** The keyword arguments [create_expense] constructs the [Expense] with:
    the fields of the payload, except for [date=None]. *)
Definition expense_kwargs (payload : CreateExpense.t) : Expense.kwargs :=
  {| Expense.kw_group_id := Some (CreateExpense.group_id payload);
     Expense.kw_description := Some (CreateExpense.description payload);
     Expense.kw_amount := Some (CreateExpense.amount payload);
     Expense.kw_currency := Some (CreateExpense.currency payload);
     Expense.kw_paid_by := Some (CreateExpense.paid_by payload);
     Expense.kw_date := None;
     Expense.kw_splits :=
       Some (SplitItem.Instance <$> CreateExpense.splits payload);
     Expense.kw_notes := CreateExpense.notes payload |}.

Definition create_expense `{EmailValidator} (payload : CreateExpense.t)
  : M Store nat :=
  if (CreateExpense.amount payload <=? 0)%float then
    raise (HTTPException 400 "Amount must be greater than 0")
  else
    expense ← construct (Expense.new (expense_kwargs payload)) ;
    eid ← create_document "expense" (ExpenseEntity expense) ;
    mret eid.

(** *** Serialization of stored documents *)

(** The values a stored document holds. *)
Inductive value :=
  | VNone
  | VBool (b : bool)
  | VInt (z : Z)
  | VFloat (x : float)
  | VStr (s : string)
  | VObjectId (hex : string)
  | VDatetime (t : datetime)
  | VList (l : list value)
  | VDict (d : list (string * value)).

(** A dict object is a finite map from keys to values; the heap holds the
    dict objects, and a reference is an address of the heap.  Reading an
    address outside the heap yields the empty dict: references handed to the
    code always point into the heap. *)
Abbreviation dict := (gmap string value).
Abbreviation heap := (gmap nat (gmap string value)).

(** [len(a)] *)
Definition dict_len (a : nat) : M heap nat :=
  λ h, (Ok (size (h !!! a)), h).

(** [dict(a)]: a new object with the same items. *)
Definition dict_copy (a : nat) : M heap nat :=
  λ h, let b := fresh (dom h) in (Ok b, <[b := h !!! a]> h).

(** [a.pop(k, dflt)] *)
Definition dict_pop (a : nat) (k : string) (dflt : value) : M heap value :=
  λ h, (Ok (default dflt ((h !!! a) !! k)), <[a := delete k (h !!! a)]> h).

(** [a[k] = v] *)
Definition dict_setitem (a : nat) (k : string) (v : value) : M heap unit :=
  λ h, (Ok (), <[a := <[k := v]> (h !!! a)]> h).

(** [list(a.items())]: a snapshot of the items. *)
Definition dict_items (a : nat) : M heap (list (string * value)) :=
  λ h, (Ok (map_to_list (h !!! a)), h).

Section serialize_doc.

(** Python's [str] on a value and [datetime.isoformat] belong to the
    language runtime. *)
Variable str : value → string.
Variable isoformat : datetime → string.

(** [doc] is [None] or a reference to a dict. *)
Definition serialize_doc (doc : option nat) : M heap (option nat) :=
  match doc with
  | None => mret None
  | Some a =>
      n ← dict_len a ;
      if decide (n = 0) then mret (Some a)
      else
        d ← dict_copy a ;
        _id ← dict_pop d "_id" VNone ;
        match _id with
        | VNone => mret ()
        | _ => dict_setitem d "id" (VStr (str _id))
        end ;;
        items ← dict_items d ;
        for_each items (λ '(k, v),
          match v with
          | VDatetime t => dict_setitem d k (VStr (isoformat t))
          | _ => mret ()
          end) ;;
        mret (Some d)
  end.

End serialize_doc.

(** *** Listing groups and expenses *)




Section listing.

Variable str : value → string.
Variable isoformat : datetime → string.

(** [get_documents] of the module [database], which is not among the
    sources: given a collection name and a filter it returns references to
    the documents found, or raises. *)
Variable get_documents :
  string → gmap string value → M (gmap nat (gmap string value)) (list nat).



End listing.

(** ** Vocabulary of the specification *)

(** The invariant of a [SplitItem] instance, established by its
    constructor. *)
Definition SplitItem_wf `{EmailValidator} (s : SplitItem.t) : Prop :=
  validate_email (SplitItem.user s) = Some (SplitItem.user s)
  ∧ (0 <=? SplitItem.share s)%float = true.

(** The invariant of a [CreateExpense] instance. *)
Definition CreateExpense_wf `{EmailValidator} (p : CreateExpense.t) : Prop :=
  validate_email (CreateExpense.paid_by p) = Some (CreateExpense.paid_by p)
  ∧ Forall SplitItem_wf (CreateExpense.splits p).

Definition input_wf `{EmailValidator} (i : SplitItem.input) : Prop :=
  match i with
  | SplitItem.Instance s => SplitItem_wf s
  | SplitItem.Mapping _ => True
  end.

Definition is_Ok {E A} (r : result E A) : Prop :=
  match r with
  | Ok _ => True
  | Err _ => False
  end.

(** The constraints on the fields of each model: a required field is
    supplied, an identity field is an address the validator accepts, a
    number is within its bound, [type] is one of the three literals. *)
Definition email_shaped `{EmailValidator} (v : option string) : Prop :=
  ∃ s, v = Some s ∧ is_Some (validate_email s).

Definition SplitItem_constraints `{EmailValidator} (a : SplitItem.kwargs)
  : Prop :=
  email_shaped (SplitItem.kw_user a)
  ∧ (∀ s, SplitItem.kw_type a = Some s → s ∈ ["equal"; "exact"; "percentage"])
  ∧ (∀ x, SplitItem.kw_share a = Some x → (0 <=? x)%float = true).

Definition input_constraints `{EmailValidator} (i : SplitItem.input) : Prop :=
  match i with
  | SplitItem.Instance _ => True
  | SplitItem.Mapping a => SplitItem_constraints a
  end.

Definition Expense_constraints `{EmailValidator} (a : Expense.kwargs) : Prop :=
  is_Some (Expense.kw_group_id a)
  ∧ is_Some (Expense.kw_description a)
  ∧ (∃ x, Expense.kw_amount a = Some x ∧ (0 <? x)%float = true)
  ∧ email_shaped (Expense.kw_paid_by a)
  ∧ (∀ l, Expense.kw_splits a = Some l → Forall input_constraints l).

Definition Group_constraints `{EmailValidator} (a : Group.kwargs) : Prop :=
  is_Some (Group.kw_name a)
  ∧ email_shaped (Group.kw_created_by a)
  ∧ (∃ l, Group.kw_members a = Some l
          ∧ Forall (λ m, is_Some (validate_email m)) l).

Definition Appuser_constraints `{EmailValidator} (a : Appuser.kwargs) : Prop :=
  is_Some (Appuser.kw_name a) ∧ email_shaped (Appuser.kw_email a).

(** A datetime as the text [isoformat] gives, any other value as it is. *)
Definition textual (isoformat : datetime → string) (v : value) : value :=
  match v with
  | VDatetime t => VStr (isoformat t)
  | _ => v
  end.

(** The items of the serialized copy of a dict: [_id] is gone, its value,
    unless it is [None], is under [id] as text, and datetimes are text. *)
Definition serialized (str : value → string) (isoformat : datetime → string)
    (m : gmap string value) : gmap string value :=
  textual isoformat <$>
    match default VNone (m !! "_id") with
    | VNone => delete "_id" m
    | v => <["id" := VStr (str v)]> (delete "_id" m)
    end.

(** What one round of the loop of [serialize_doc] does to the items. *)
Definition isoformat_item (isoformat : datetime → string)
    (m : gmap string value) (kv : string * value) : gmap string value :=
  match kv.2 with
  | VDatetime t => <[kv.1 := VStr (isoformat t)]> m
  | _ => m
  end.

(** A failed validation reports at least one violation. *)
Definition reports_errors {A} (r : result error_list A) : Prop :=
  match r with
  | Ok _ => True
  | Err es => es ≠ []
  end.

(** The record [create_document] adds for an expense. *)
Definition expense_record (i : nat) (e : Expense.t) : stored :=
  {| collection := "expense"; stored_id := i;
     stored_entity := ExpenseEntity e |}.

Definition group_record (i : nat) (g : Group.t) : stored :=
  {| collection := "group"; stored_id := i; stored_entity := GroupEntity g |}.

(** The invariant of a [CreateGroup] instance: its addresses are validated,
    hence normalised. *)
Definition CreateGroup_wf `{EmailValidator} (p : CreateGroup.t) : Prop :=
  validate_email (CreateGroup.created_by p) = Some (CreateGroup.created_by p)
  ∧ Forall (λ m, validate_email m = Some m) (CreateGroup.members p).

(** The group [create_group] builds from a payload. *)
Definition group_of (p : CreateGroup.t) : Group.t :=
  {| Group.name := CreateGroup.name p;
     Group.created_by := CreateGroup.created_by p;
     Group.members :=
       normalize_members (CreateGroup.created_by p) (CreateGroup.members p);
     Group.default_currency := CreateGroup.default_currency p;
     Group.image_url := CreateGroup.image_url p |}.

(** The expense [create_expense] builds from a payload. *)
Definition expense_of (p : CreateExpense.t) : Expense.t :=
  {| Expense.group_id := CreateExpense.group_id p;
     Expense.description := CreateExpense.description p;
     Expense.amount := CreateExpense.amount p;
     Expense.currency := CreateExpense.currency p;
     Expense.paid_by := CreateExpense.paid_by p;
     Expense.date := None;
     Expense.splits := CreateExpense.splits p;
     Expense.notes := CreateExpense.notes p |}.

(** Python's [sum] over floats. *)
Definition sum_floats (l : list float) : float := foldl PrimFloat.add 0%float l.

#[global] Instance split_type_eq_dec : EqDecision SplitItem.split_type.
Proof. solve_decision. Defined.

Definition shares_of_type (ty : SplitItem.split_type) (ss : list SplitItem.t)
  : list float :=
  SplitItem.share <$> filter (λ s, SplitItem.type s = ty) ss.

(** "The sum of all exact shares", "the sum of all percentage values". *)
Definition exact_total (ss : list SplitItem.t) : float :=
  sum_floats (shares_of_type SplitItem.exact ss).

Definition percentage_total (ss : list SplitItem.t) : float :=
  sum_floats (shares_of_type SplitItem.percentage ss).

(** The floating tolerance the specification suggests, 1e-6. *)
Definition tolerance : float := (1 / 1000000)%float.

(** The exact shares exceed the amount, or the percentages exceed 100. *)
Definition overflows (amount : float) (ss : list SplitItem.t) : Prop :=
  (amount <? exact_total ss)%float = true
  ∨ (100 + tolerance <? percentage_total ss)%float = true.

(** The amount an exact or percentage entry resolves to; an equal entry
    resolves to nothing by itself. *)
Definition resolved (amount : float) (s : SplitItem.t) : float :=
  match SplitItem.type s with
  | SplitItem.exact => SplitItem.share s
  | SplitItem.percentage => (amount * SplitItem.share s / 100)%float
  | SplitItem.equal => 0%float
  end.

Definition resolved_total (amount : float) (ss : list SplitItem.t) : float :=
  sum_floats (resolved amount <$> ss).

(** Non-empty splits without an equal entry that leave money unaccounted. *)
Definition falls_short (amount : float) (ss : list SplitItem.t) : Prop :=
  ss ≠ []
  ∧ filter (λ s, SplitItem.type s = SplitItem.equal) ss = []
  ∧ (resolved_total amount ss + tolerance <? amount)%float = true.

(** "Removing duplicates while preserving first-occurrence order". *)
Fixpoint dedup_first (l : list string) : list string :=
  match l with
  | [] => []
  | x :: l' => x :: filter (λ y, y ≠ x) (dedup_first l')
  end.

(** ** Concrete requests *)

Definition has_at (s : string) : bool :=
  match String.index 0 "@" s with
  | Some _ => true
  | None => false
  end.

(** A stand-in for the email-validator package on which the handlers can be
    run: a text is an address when it contains an at sign, and is returned
    as it is. *)
Definition example_validator : EmailValidator.
Proof.
  refine {| validate_email s := if has_at s then Some s else None |}.
  intros s s' Hs. destruct (has_at s) eqn:E; [|discriminate].
  injection Hs as <-. rewrite E. reflexivity.
Defined.

Definition alice : string := "alice@example.com".
Definition bob : string := "bob@example.com".

Definition split_of (u : string) (ty : SplitItem.split_type) (x : float)
  : SplitItem.t :=
  {| SplitItem.user := u; SplitItem.type := ty; SplitItem.share := x |}.

(** A request for an expense of [amount] paid by alice, and the payload it
    is parsed into. *)
Definition expense_request (amount : float) (date : option string)
    (ss : list SplitItem.kwargs) : CreateExpense.kwargs :=
  {| CreateExpense.kw_group_id := Some "g1";
     CreateExpense.kw_description := Some "dinner";
     CreateExpense.kw_amount := Some amount;
     CreateExpense.kw_currency := None;
     CreateExpense.kw_paid_by := Some alice;
     CreateExpense.kw_date := date;
     CreateExpense.kw_splits := Some (SplitItem.Mapping <$> ss);
     CreateExpense.kw_notes := None |}.

Definition expense_payload (amount : float) (date : option string)
    (ss : list SplitItem.t) : CreateExpense.t :=
  {| CreateExpense.group_id := "g1";
     CreateExpense.description := "dinner";
     CreateExpense.amount := amount;
     CreateExpense.currency := "USD";
     CreateExpense.paid_by := alice;
     CreateExpense.date := date;
     CreateExpense.splits := ss;
     CreateExpense.notes := None |}.

Definition split_request (u ty : string) (x : option float)
  : SplitItem.kwargs :=
  {| SplitItem.kw_user := Some u; SplitItem.kw_type := Some ty;
     SplitItem.kw_share := x |}.

(** The second test of the specification for overflow: 60% and 60% of 100. *)
Definition request_percent_120 : CreateExpense.kwargs :=
  expense_request 100 None
    [split_request alice "percentage" (Some 60%float);
     split_request bob "percentage" (Some 60%float)].

Definition payload_percent_120 : CreateExpense.t :=
  expense_payload 100 None
    [split_of alice SplitItem.percentage 60;
     split_of bob SplitItem.percentage 60].

(** An exact share of 25 of an expense of 10. *)
Definition payload_exact_25_of_10 : CreateExpense.t :=
  expense_payload 10 None [split_of bob SplitItem.exact 25].

(** The test of the specification for a repeated user. *)
Definition request_duplicate_user : CreateExpense.kwargs :=
  expense_request 100 None
    [split_request alice "equal" None;
     split_request alice "exact" (Some 10%float)].

Definition payload_duplicate_user : CreateExpense.t :=
  expense_payload 100 None
    [split_of alice SplitItem.equal 0; split_of alice SplitItem.exact 10].

Definition payload_distinct_users : CreateExpense.t :=
  expense_payload 100 None
    [split_of alice SplitItem.equal 0; split_of bob SplitItem.exact 10].

(** The test of the specification for a shortfall: 7 of 10 accounted. *)
Definition request_exact_7_of_10 : CreateExpense.kwargs :=
  expense_request 10 None [split_request alice "exact" (Some 7%float)].

Definition payload_exact_7_of_10 : CreateExpense.t :=
  expense_payload 10 None [split_of alice SplitItem.exact 7].

Definition payload_no_splits : CreateExpense.t := expense_payload 50 None [].

(** One exact share of 10 of an expense of 100. *)
Definition request_exact_10_of_100 : CreateExpense.kwargs :=
  expense_request 100 None [split_request bob "exact" (Some 10%float)].

Definition payload_exact_10_of_100 : CreateExpense.t :=
  expense_payload 100 None [split_of bob SplitItem.exact 10].

(** A request that carries a date. *)
Definition payload_with_date : CreateExpense.t :=
  expense_payload 20 (Some "2024-05-01T12:00:00")
    [split_of bob SplitItem.equal 0].

Definition payload_zero_amount : CreateExpense.t :=
  expense_payload 0 None [split_of bob SplitItem.equal 0].

(** A group of alice, who also lists herself and bob twice. *)
Definition payload_group : CreateGroup.t :=
  {| CreateGroup.name := "flat";
     CreateGroup.created_by := alice;
     CreateGroup.members := [bob; alice; bob];
     CreateGroup.default_currency := "USD";
     CreateGroup.image_url := None |}.

(** A group and an expense whose texts are empty. *)
Definition group_with_empty_name : Group.kwargs :=
  {| Group.kw_name := Some "";
     Group.kw_created_by := Some alice;
     Group.kw_members := Some [alice];
     Group.kw_default_currency := None;
     Group.kw_image_url := None |}.

Definition expense_with_empty_description : Expense.kwargs :=
  {| Expense.kw_group_id := Some "";
     Expense.kw_description := Some "";
     Expense.kw_amount := Some 5%float;
     Expense.kw_currency := None;
     Expense.kw_paid_by := Some alice;
     Expense.kw_date := None;
     Expense.kw_splits := None;
     Expense.kw_notes := None |}.

(** A stored group document, with stand-ins for [str] and [isoformat]. *)
Definition example_str (v : value) : string :=
  match v with
  | VObjectId hex => hex
  | VStr s => s
  | _ => "?"
  end.

Definition example_isoformat (t : datetime) : string :=
  if decide (year t = 2024%N) then "2024-05-01T12:00:00" else "1970-01-01T00:00:00".

Definition example_datetime : datetime :=
  {| year := 2024; month := 5; day := 1;
     hour := 12; minute := 0; second := 0; microsecond := 0 |}.

Definition example_doc : gmap string value :=
  {[ "_id" := VObjectId "65f0c0ffee";
     "name" := VStr "flat";
     "members" := VList [VStr alice; VStr bob];
     "created_at" := VDatetime example_datetime ]}.

Definition example_heap : gmap nat (gmap string value) := {[ 0 := example_doc ]}.

(** A request whose amount is not a number. *)
Definition payload_nan_amount : CreateExpense.t :=
  expense_payload nan None [split_of bob SplitItem.equal 0].


(** An expense whose second split has a negative share. *)
Definition expense_with_negative_share : Expense.kwargs :=
  {| Expense.kw_group_id := Some "g1";
     Expense.kw_description := Some "dinner";
     Expense.kw_amount := Some 5%float;
     Expense.kw_currency := None;
     Expense.kw_paid_by := Some alice;
     Expense.kw_date := None;
     Expense.kw_splits :=
       Some [SplitItem.Mapping (split_request alice "equal" None);
             SplitItem.Mapping (split_request bob "exact" (Some (-1)%float))];
     Expense.kw_notes := None |}.

(** A request for a group of alice with bob listed twice. *)
Definition group_request : CreateGroup.kwargs :=
  {| CreateGroup.kw_name := Some "flat";
     CreateGroup.kw_created_by := Some alice;
     CreateGroup.kw_members := Some [bob; alice; bob];
     CreateGroup.kw_default_currency := None;
     CreateGroup.kw_image_url := None |}.


(** * Properties *)

(** ** Comparisons of floats *)

Lemma float_gt0_not_le0 (x : float) :
  (0 <? x)%float = true → (x <=? 0)%float = false.
Proof.
  rewrite ltb_spec, leb_spec.
  change (Prim2SF 0) with (S754_zero false).
  unfold SFltb, SFleb.
  destruct (Prim2SF x) as [s|s| |s m e]; simpl; try destruct s; done.
Qed.

Lemma float_le0_not_gt0 (x : float) :
  (x <=? 0)%float = true → (0 <? x)%float = false.
Proof.
  intros Hle. destruct (0 <? x)%float eqn:Hlt; [|done].
  apply float_gt0_not_le0 in Hlt. congruence.
Qed.

(** ** Validation of fields and models *)

Section validation.
Context `{EmailValidator}.

Lemma validate_list_instances (i : nat) (l : list SplitItem.t) :
  SplitItem.validate_list_from i (SplitItem.Instance <$> l) = Ok l.
Proof.
  revert i. induction l as [|s l IH]; intros i; simpl; [done|].
  by rewrite IH.
Qed.

Lemma validate_emails_normalised (i : nat) (l : list string) :
  Forall (λ m, validate_email m = Some m) l →
  validate_emails_from i l = Ok l.
Proof.
  intros Hl. revert i. induction Hl as [|m l Hm _ IH]; intros i; simpl; [done|].
  by rewrite Hm, IH.
Qed.

Lemma SplitItem_new_wf (a : SplitItem.kwargs) (s : SplitItem.t) :
  SplitItem.new a = Ok s → SplitItem_wf s.
Proof.
  unfold SplitItem.new, required_email, default_float_ge0, SplitItem_wf.
  destruct (SplitItem.kw_user a) as [u|]; simpl;
    [destruct (validate_email u) as [u'|] eqn:Hu|]; simpl;
    destruct (SplitItem.validate_type (SplitItem.kw_type a)); simpl; try done;
    destruct (SplitItem.kw_share a) as [x|]; simpl;
    try destruct (0 <=? x)%float eqn:Hx; simpl; try done;
    intros [= <-]; simpl; eauto using validate_email_idem.
Qed.

Lemma validate_list_wf (i : nat) (l : list SplitItem.input)
    (ss : list SplitItem.t) :
  Forall input_wf l →
  SplitItem.validate_list_from i l = Ok ss → Forall SplitItem_wf ss.
Proof.
  intros Hl. revert i ss.
  induction Hl as [|x l Hx _ IH]; intros i ss; simpl.
  - by intros [= <-].
  - destruct (SplitItem.validate x) as [s|] eqn:Hs; [|done].
    destruct (SplitItem.validate_list_from (S i) l) as [ss'|] eqn:Hss; [|done].
    intros [= <-]. constructor; [|by eapply IH].
    destruct x as [s0|a]; simpl in *.
    + by injection Hs as <-.
    + by eapply SplitItem_new_wf.
Qed.

Lemma CreateExpense_new_wf (a : CreateExpense.kwargs) (p : CreateExpense.t) :
  (∀ l, CreateExpense.kw_splits a = Some l → Forall input_wf l) →
  CreateExpense.new a = Ok p → CreateExpense_wf p.
Proof.
  intros Hl. unfold CreateExpense.new.
  destruct (required_str "group_id" _); [|done].
  destruct (required_str "description" _); [|done].
  destruct (required_float "amount" _); [|done].
  destruct (required_email "paid_by" _) as [pb|] eqn:Hpb; [|done].
  destruct (CreateExpense.required_splits _) as [ss|] eqn:Hss; [|done].
  intros [= <-]. split; simpl.
  - unfold required_email in Hpb.
    destruct (CreateExpense.kw_paid_by a) as [s|]; [|done].
    destruct (validate_email s) eqn:Hs; [|done].
    injection Hpb as ->. by eapply validate_email_idem.
  - unfold CreateExpense.required_splits in Hss.
    destruct (CreateExpense.kw_splits a) as [l|]; [|done].
    unfold nested, SplitItem.validate_list in Hss.
    destruct (SplitItem.validate_list_from 0 l) eqn:Hv; [|done].
    injection Hss as ->. eapply validate_list_wf; [|done]. by apply Hl.
Qed.

Lemma Expense_new_date (a : Expense.kwargs) (e : Expense.t) :
  Expense.new a = Ok e → Expense.date e = Expense.kw_date a.
Proof.
  unfold Expense.new.
  destruct (required_str "group_id" _); [|done].
  destruct (required_str "description" _); [|done].
  destruct (required_float_gt0 "amount" _); [|done].
  destruct (required_email "paid_by" _); [|done].
  destruct (Expense.validate_splits _); [|done].
  by intros [= <-].
Qed.

Lemma Expense_new_amount (a : Expense.kwargs) (e : Expense.t) :
  Expense.new a = Ok e → (0 <? Expense.amount e)%float = true.
Proof.
  unfold Expense.new.
  destruct (required_str "group_id" _); [|done].
  destruct (required_str "description" _); [|done].
  destruct (required_float_gt0 "amount" _) as [x|] eqn:Hx; [|done].
  destruct (required_email "paid_by" _); [|done].
  destruct (Expense.validate_splits _); [|done].
  intros [= <-]. simpl. unfold required_float_gt0 in Hx.
  destruct (Expense.kw_amount a) as [y|]; [|done].
  destruct (0 <? y)%float eqn:Hy; [|done]. by injection Hx as <-.
Qed.

Lemma Expense_new_rejects_amount (a : Expense.kwargs) (x : float) :
  Expense.kw_amount a = Some x →
  (0 <? x)%float = false →
  ∃ es, Expense.new a = Err es
        ∧ {| loc := [Field "amount"]; violated := NotGreaterThan0 |} ∈ es.
Proof.
  intros Ha Hx. unfold Expense.new, required_float_gt0. rewrite Ha, Hx.
  destruct (required_str "group_id" _), (required_str "description" _),
    (required_email "paid_by" _), (Expense.validate_splits _);
    eexists; (split; [reflexivity|]); simpl;
    rewrite ?elem_of_app, ?elem_of_cons; auto 10.
Qed.

End validation.

(** ** Creating an expense *)

Section expenses.
Context `{EmailValidator}.

Lemma Expense_new_payload (p : CreateExpense.t) (e : Expense.t) :
  Expense.new (expense_kwargs p) = Ok e →
  (0 <? CreateExpense.amount p)%float = true
  ∧ validate_email (CreateExpense.paid_by p) = Some (Expense.paid_by e)
  ∧ Expense.amount e = CreateExpense.amount p
  ∧ Expense.date e = None
  ∧ Expense.splits e = CreateExpense.splits p.
Proof.
  unfold Expense.new, expense_kwargs, required_float_gt0, required_email,
    Expense.validate_splits, nested, SplitItem.validate_list; simpl.
  rewrite validate_list_instances.
  destruct (0 <? CreateExpense.amount p)%float; [|done].
  destruct (validate_email (CreateExpense.paid_by p)); [|done].
  by intros [= <-].
Qed.

Lemma Expense_new_accepts (p : CreateExpense.t) :
  validate_email (CreateExpense.paid_by p) = Some (CreateExpense.paid_by p) →
  (0 <? CreateExpense.amount p)%float = true →
  Expense.new (expense_kwargs p) = Ok (expense_of p).
Proof.
  intros Hpb Hgt.
  unfold Expense.new, expense_kwargs, required_float_gt0, required_email,
    Expense.validate_splits, nested, SplitItem.validate_list; simpl.
  by rewrite validate_list_instances, Hgt, Hpb.
Qed.

(** A payload with a positive amount is stored as it is, with no date. *)
Lemma create_expense_accepts (p : CreateExpense.t) (st : Store) :
  CreateExpense_wf p →
  (0 <? CreateExpense.amount p)%float = true →
  create_expense p st
  = (Ok (length st), st ++ [expense_record (length st) (expense_of p)]).
Proof.
  intros [Hpb _] Hgt. unfold create_expense.
  rewrite (float_gt0_not_le0 _ Hgt).
  unfold mbind, M_bind. by rewrite (Expense_new_accepts _ Hpb Hgt).
Qed.

(** What a successful call has done. *)
Lemma create_expense_Ok_inv (p : CreateExpense.t) (st st' : Store) (eid : nat) :
  create_expense p st = (Ok eid, st') →
  ∃ e, Expense.new (expense_kwargs p) = Ok e
       ∧ eid = length st
       ∧ st' = st ++ [expense_record eid e].
Proof.
  unfold create_expense.
  destruct (CreateExpense.amount p <=? 0)%float; [done|].
  unfold mbind, M_bind.
  destruct (Expense.new (expense_kwargs p)) as [e|es]; simpl; [|done].
  intros [= <- <-]. by exists e.
Qed.

End expenses.

Section expense_claims.
Context `{EmailValidator}.

(** C1 (as amended).  An accepted request is persisted with its splits
    exactly as submitted: no amount per user is computed.  Every stored
    share is at least 0 and the users of the stored splits are the users of
    the submitted entries, in the same order.  Nothing relates the sum of
    the stored shares to the amount of the expense. *)
Theorem create_expense_stores_splits_as_given
    (p : CreateExpense.t) (st st' : Store) (eid : nat) :
  CreateExpense_wf p →
  create_expense p st = (Ok eid, st') →
  ∃ e, st' = st ++ [expense_record eid e]
       ∧ Expense.amount e = CreateExpense.amount p
       ∧ Expense.splits e = CreateExpense.splits p
       ∧ Forall (λ s, (0 <=? SplitItem.share s)%float = true) (Expense.splits e)
       ∧ SplitItem.user <$> Expense.splits e
         = SplitItem.user <$> CreateExpense.splits p.
Proof.
  intros [_ Hss] Hrun.
  destruct (create_expense_Ok_inv _ _ _ _ Hrun) as (e & He & _ & ->).
  destruct (Expense_new_payload _ _ He) as (_ & _ & Ham & _ & Hsp).
  exists e. rewrite Hsp. repeat split; try done.
  eapply Forall_impl; [exact Hss|]. by intros s [_ Hs].
Qed.

(** C2 (as amended).  No check compares the exact shares with the amount or
    the percentages with 100: a request with a positive amount whose splits
    overflow is accepted, and the expense is persisted with these splits. *)
Theorem create_expense_accepts_overflow (p : CreateExpense.t) (st : Store) :
  CreateExpense_wf p →
  (0 <? CreateExpense.amount p)%float = true →
  overflows (CreateExpense.amount p) (CreateExpense.splits p) →
  create_expense p st
  = (Ok (length st), st ++ [expense_record (length st) (expense_of p)])
  ∧ Expense.splits (expense_of p) = CreateExpense.splits p.
Proof.
  intros Hwf Hgt _. split; [|done]. by apply create_expense_accepts.
Qed.

(** C3 (as amended).  No check looks for a repeated user: a request with a
    positive amount is accepted and persisted with its splits whether the
    users of its splits repeat or are all distinct. *)
Theorem create_expense_ignores_duplicate_users
    (p : CreateExpense.t) (st : Store) :
  CreateExpense_wf p →
  (0 <? CreateExpense.amount p)%float = true →
  (¬ NoDup (SplitItem.user <$> CreateExpense.splits p) →
   create_expense p st
   = (Ok (length st), st ++ [expense_record (length st) (expense_of p)]))
  ∧ (NoDup (SplitItem.user <$> CreateExpense.splits p) →
     create_expense p st
     = (Ok (length st), st ++ [expense_record (length st) (expense_of p)])).
Proof.
  intros Hwf Hgt. split; intros _; by apply create_expense_accepts.
Qed.

(** C4 (as amended).  No check looks for money left unaccounted: a request
    with a positive amount whose non-empty splits have no equal entry and
    resolve to less than the amount is accepted and persisted with these
    splits.  A request with no splits at all is accepted, and the expense is
    persisted with no splits. *)
Theorem create_expense_accepts_shortfall (p : CreateExpense.t) (st : Store) :
  CreateExpense_wf p →
  (0 <? CreateExpense.amount p)%float = true →
  (falls_short (CreateExpense.amount p) (CreateExpense.splits p) →
   create_expense p st
   = (Ok (length st), st ++ [expense_record (length st) (expense_of p)]))
  ∧ (CreateExpense.splits p = [] →
     create_expense p st
     = (Ok (length st), st ++ [expense_record (length st) (expense_of p)])
     ∧ Expense.splits (expense_of p) = []).
Proof.
  intros Hwf Hgt. split.
  - intros _. by apply create_expense_accepts.
  - intros Hnil. split; [by apply create_expense_accepts|done].
Qed.

(** C6.  A request whose amount is 0 or negative is rejected by the handler
    with status 400 before an [Expense] is constructed or anything is
    stored: the store is left as it was.  Constructing an [Expense] with
    such an amount fails on the field [amount], and every constructed
    [Expense] has an amount greater than 0. *)
Theorem create_expense_rejects_nonpositive_amount
    (p : CreateExpense.t) (st : Store) :
  (CreateExpense.amount p <=? 0)%float = true →
  create_expense p st
  = (Err (HTTPException 400 "Amount must be greater than 0"), st)
  ∧ (∀ a, Expense.kw_amount a = Some (CreateExpense.amount p) →
          ∃ es, Expense.new a = Err es
                ∧ {| loc := [Field "amount"]; violated := NotGreaterThan0 |} ∈ es)
  ∧ (∀ a e, Expense.new a = Ok e → (0 <? Expense.amount e)%float = true).
Proof.
  intros Hle. split; [|split].
  - unfold create_expense. by rewrite Hle.
  - intros a Ha. eapply Expense_new_rejects_amount; [done|].
    by apply float_le0_not_gt0.
  - apply Expense_new_amount.
Qed.

(** C9.  The expense a request persists has no date, whatever date the
    payload carries. *)
Theorem create_expense_discards_date
    (p : CreateExpense.t) (st st' : Store) (eid : nat) :
  create_expense p st = (Ok eid, st') →
  ∃ e, st' = st ++ [expense_record eid e] ∧ Expense.date e = None.
Proof.
  intros Hrun.
  destruct (create_expense_Ok_inv _ _ _ _ Hrun) as (e & He & _ & ->).
  exists e. split; [done|]. by apply Expense_new_payload in He as (_&_&_&?&_).
Qed.

End expense_claims.

(** *** The handler on concrete requests *)

(** C1, counterexample.  The request for an expense of 100 with one exact
    share of 10 is accepted; the stored shares sum to 10, which is 90 away
    from the amount. *)
Lemma create_expense_sum_is_not_amount :
  @CreateExpense.new example_validator request_exact_10_of_100
  = Ok payload_exact_10_of_100
  ∧ @create_expense example_validator payload_exact_10_of_100 []
    = (Ok 0, [expense_record 0 (expense_of payload_exact_10_of_100)])
  ∧ Expense.splits (expense_of payload_exact_10_of_100) ≠ []
  ∧ Expense.amount (expense_of payload_exact_10_of_100) = 100%float
  ∧ sum_floats
      (SplitItem.share <$> Expense.splits (expense_of payload_exact_10_of_100))
    = 10%float
  ∧ (1 <? abs (10 - 100))%float = true.
Proof. repeat split; done. Qed.

Lemma create_expense_stores_splits_as_given_witness :
  @CreateExpense_wf example_validator payload_exact_10_of_100
  ∧ ∃ e, [expense_record 0 (expense_of payload_exact_10_of_100)]
         = [] ++ [expense_record 0 e]
       ∧ Expense.amount e = 100%float
       ∧ Expense.splits e = [split_of bob SplitItem.exact 10]
       ∧ Forall (λ s, (0 <=? SplitItem.share s)%float = true) (Expense.splits e)
       ∧ SplitItem.user <$> Expense.splits e = [bob].
Proof.
  assert (@CreateExpense_wf example_validator payload_exact_10_of_100) as Hwf
    by (split; [reflexivity|repeat constructor]).
  split; [exact Hwf|].
  exact (@create_expense_stores_splits_as_given example_validator
           payload_exact_10_of_100 [] _ 0 Hwf eq_refl).
Defined.

(** C2, counterexample.  The request with percentages 60 and 60 of an
    expense of 100 overflows and is accepted; so is the exact share of 25 of
    an expense of 10. *)
Lemma create_expense_overflow_is_accepted :
  @CreateExpense.new example_validator request_percent_120
  = Ok payload_percent_120
  ∧ percentage_total (CreateExpense.splits payload_percent_120) = 120%float
  ∧ (100 + tolerance <? 120)%float = true
  ∧ @create_expense example_validator payload_percent_120 []
    = (Ok 0, [expense_record 0 (expense_of payload_percent_120)])
  ∧ exact_total (CreateExpense.splits payload_exact_25_of_10) = 25%float
  ∧ (CreateExpense.amount payload_exact_25_of_10 <? 25)%float = true
  ∧ @create_expense example_validator payload_exact_25_of_10 []
    = (Ok 0, [expense_record 0 (expense_of payload_exact_25_of_10)]).
Proof. repeat split; done. Qed.

Lemma create_expense_accepts_overflow_witness :
  @CreateExpense_wf example_validator payload_percent_120
  ∧ (0 <? CreateExpense.amount payload_percent_120)%float = true
  ∧ overflows (CreateExpense.amount payload_percent_120)
              (CreateExpense.splits payload_percent_120)
  ∧ @create_expense example_validator payload_percent_120 []
    = (Ok 0, [expense_record 0 (expense_of payload_percent_120)])
  ∧ Expense.splits (expense_of payload_percent_120)
    = CreateExpense.splits payload_percent_120.
Proof.
  assert (@CreateExpense_wf example_validator payload_percent_120) as Hwf
    by (split; [reflexivity|repeat constructor]).
  assert (overflows (CreateExpense.amount payload_percent_120)
            (CreateExpense.splits payload_percent_120)) as Hover
    by (right; reflexivity).
  split; [exact Hwf|]. split; [reflexivity|]. split; [exact Hover|].
  exact (@create_expense_accepts_overflow example_validator
           payload_percent_120 [] Hwf eq_refl Hover).
Defined.

(** C3, counterexample.  The request whose splits name alice twice is
    accepted and stored with both entries. *)
Lemma create_expense_duplicate_user_is_accepted :
  @CreateExpense.new example_validator request_duplicate_user
  = Ok payload_duplicate_user
  ∧ SplitItem.user <$> CreateExpense.splits payload_duplicate_user
    = [alice; alice]
  ∧ @create_expense example_validator payload_duplicate_user []
    = (Ok 0, [expense_record 0 (expense_of payload_duplicate_user)]).
Proof. repeat split; done. Qed.

Lemma create_expense_ignores_duplicate_users_witness :
  @CreateExpense_wf example_validator payload_duplicate_user
  ∧ (0 <? CreateExpense.amount payload_duplicate_user)%float = true
  ∧ ¬ NoDup (SplitItem.user <$> CreateExpense.splits payload_duplicate_user)
  ∧ @create_expense example_validator payload_duplicate_user []
    = (Ok 0, [expense_record 0 (expense_of payload_duplicate_user)])
  ∧ NoDup (SplitItem.user <$> CreateExpense.splits payload_distinct_users)
  ∧ @create_expense example_validator payload_distinct_users []
    = (Ok 0, [expense_record 0 (expense_of payload_distinct_users)]).
Proof.
  assert (@CreateExpense_wf example_validator payload_duplicate_user) as Hwf
    by (split; [reflexivity|repeat constructor]).
  assert (@CreateExpense_wf example_validator payload_distinct_users) as Hwf'
    by (split; [reflexivity|repeat constructor]).
  assert (¬ NoDup (SplitItem.user <$> CreateExpense.splits payload_duplicate_user))
    as Hdup by (intros Hnd; inversion Hnd as [|?? Hnotin _]; apply Hnotin; left).
  assert (NoDup (SplitItem.user <$> CreateExpense.splits payload_distinct_users))
    as Hnd by (apply (bool_decide_unpack _); reflexivity).
  split; [exact Hwf|]. split; [reflexivity|]. split; [exact Hdup|].
  split; [|split; [exact Hnd|]].
  - exact (proj1 (@create_expense_ignores_duplicate_users example_validator
                    payload_duplicate_user [] Hwf eq_refl) Hdup).
  - exact (proj2 (@create_expense_ignores_duplicate_users example_validator
                    payload_distinct_users [] Hwf' eq_refl) Hnd).
Defined.

(** C4, counterexample.  The request for an expense of 10 with one exact
    share of 7 and no equal entry leaves 3 unaccounted and is accepted. *)
Lemma create_expense_shortfall_is_accepted :
  @CreateExpense.new example_validator request_exact_7_of_10
  = Ok payload_exact_7_of_10
  ∧ resolved_total 10 (CreateExpense.splits payload_exact_7_of_10) = 7%float
  ∧ (7 + tolerance <? 10)%float = true
  ∧ filter (λ s, SplitItem.type s = SplitItem.equal)
           (CreateExpense.splits payload_exact_7_of_10) = []
  ∧ @create_expense example_validator payload_exact_7_of_10 []
    = (Ok 0, [expense_record 0 (expense_of payload_exact_7_of_10)]).
Proof. repeat split; done. Qed.

Lemma create_expense_accepts_shortfall_witness :
  @CreateExpense_wf example_validator payload_exact_7_of_10
  ∧ (0 <? CreateExpense.amount payload_exact_7_of_10)%float = true
  ∧ falls_short (CreateExpense.amount payload_exact_7_of_10)
                (CreateExpense.splits payload_exact_7_of_10)
  ∧ @create_expense example_validator payload_exact_7_of_10 []
    = (Ok 0, [expense_record 0 (expense_of payload_exact_7_of_10)])
  ∧ @create_expense example_validator payload_no_splits []
    = (Ok 0, [expense_record 0 (expense_of payload_no_splits)])
  ∧ Expense.splits (expense_of payload_no_splits) = [].
Proof.
  assert (@CreateExpense_wf example_validator payload_exact_7_of_10) as Hwf
    by (split; [reflexivity|repeat constructor]).
  assert (@CreateExpense_wf example_validator payload_no_splits) as Hwf'
    by (split; [reflexivity|constructor]).
  assert (falls_short (CreateExpense.amount payload_exact_7_of_10)
            (CreateExpense.splits payload_exact_7_of_10)) as Hshort
    by (split; [discriminate|split; reflexivity]).
  split; [exact Hwf|]. split; [reflexivity|]. split; [exact Hshort|].
  split.
  - exact (proj1 (@create_expense_accepts_shortfall example_validator
                    payload_exact_7_of_10 [] Hwf eq_refl) Hshort).
  - exact (proj2 (@create_expense_accepts_shortfall example_validator
                    payload_no_splits [] Hwf' eq_refl) eq_refl).
Defined.

Lemma create_expense_rejects_nonpositive_amount_witness :
  (CreateExpense.amount payload_zero_amount <=? 0)%float = true
  ∧ @create_expense example_validator payload_zero_amount []
    = (Err (HTTPException 400 "Amount must be greater than 0"), []).
Proof.
  split; [reflexivity|].
  exact (proj1 (@create_expense_rejects_nonpositive_amount example_validator
                  payload_zero_amount [] eq_refl)).
Defined.

Lemma create_expense_discards_date_witness :
  CreateExpense.date payload_with_date = Some "2024-05-01T12:00:00"
  ∧ @create_expense example_validator payload_with_date []
    = (Ok 0, [expense_record 0 (expense_of payload_with_date)])
  ∧ ∃ e, [expense_record 0 (expense_of payload_with_date)]
         = [] ++ [expense_record 0 e]
       ∧ Expense.date e = None.
Proof.
  split; [reflexivity|]. split; [reflexivity|].
  exact (@create_expense_discards_date example_validator
           payload_with_date [] _ 0 eq_refl).
Defined.

(** ** Creating a group *)

Section members.
Implicit Types (l ms : list string) (x c : string).

Lemma list_or_nil {A} (a : list A) : list_or a [] = a.
Proof. by destruct a. Qed.

Lemma odict_setitem_keys {V} x (v : V) (d : list (string * V)) :
  (odict_setitem x v d).*1 = if decide (x ∈ d.*1) then d.*1 else d.*1 ++ [x].
Proof.
  induction d as [|[k' v'] d IH].
  - by destruct (decide (x ∈ ([] : list (string * V)).*1)) as [?%elem_of_nil|].
  - cbn [odict_setitem]. destruct (decide (x = k')) as [->|Hne].
    + rewrite decide_True by (rewrite fmap_cons; set_solver). done.
    + rewrite !fmap_cons, IH. cbn [fst].
      destruct (decide (x ∈ d.*1)) as [Hin|Hnin].
      * by rewrite decide_True by set_solver.
      * by rewrite decide_False by set_solver.
Qed.

Lemma elem_of_dedup_first x l : x ∈ dedup_first l ↔ x ∈ l.
Proof.
  induction l as [|y l IH]; simpl; [done|].
  rewrite !elem_of_cons, list_elem_of_filter, IH.
  destruct (decide (x = y)); naive_solver.
Qed.

Lemma NoDup_dedup_first l : NoDup (dedup_first l).
Proof.
  induction l as [|y l IH]; simpl; [constructor|].
  apply NoDup_cons. split.
  - rewrite list_elem_of_filter. naive_solver.
  - by apply NoDup_filter.
Qed.

Lemma dedup_first_sublist l : dedup_first l `sublist_of` l.
Proof.
  induction l as [|y l IH]; simpl; [done|].
  apply sublist_skip. etrans; [apply sublist_filter|done].
Qed.

Lemma filter_swap (P Q : string → Prop)
    `{∀ x, Decision (P x)} `{∀ x, Decision (Q x)} l :
  filter P (filter Q l) = filter Q (filter P l).
Proof.
  rewrite !list_filter_filter. apply list_filter_iff. naive_solver.
Qed.

Lemma filter_all (P : string → Prop) `{∀ x, Decision (P x)} l :
  (∀ x, x ∈ l → P x) → filter P l = l.
Proof.
  induction l as [|y l IH]; intros Hl; [done|].
  rewrite filter_cons_True by (apply Hl; left).
  f_equal. apply IH. intros x Hx. apply Hl. by right.
Qed.

Lemma filter_none (P : string → Prop) `{∀ x, Decision (P x)} l :
  (∀ x, x ∈ l → ¬ P x) → filter P l = [].
Proof.
  induction l as [|y l IH]; intros Hl; [done|].
  rewrite filter_cons_False by (apply Hl; left).
  apply IH. intros x Hx. apply Hl. by right.
Qed.

Lemma filter_dedup_first (P : string → Prop) `{∀ x, Decision (P x)} l :
  filter P (dedup_first l) = dedup_first (filter P l).
Proof.
  induction l as [|y l IH]; simpl; [done|].
  rewrite !filter_cons. destruct (decide (P y)) as [Hy|Hy]; simpl.
  - by rewrite <-IH, filter_swap.
  - rewrite <-IH, list_filter_filter.
    apply list_filter_iff. intros z.
    destruct (decide (z = y)) as [->|]; naive_solver.
Qed.

(** The keys of the dict after setting the keys [l] one by one. *)
Lemma fromkeys_keys {V} (v : V) l (d : list (string * V)) :
  (foldl (λ d k, odict_setitem k v d) d l).*1
  = d.*1 ++ filter (λ y, y ∉ d.*1) (dedup_first l).
Proof.
  revert d. induction l as [|x l IH]; intros d; simpl.
  - by rewrite filter_nil, app_nil_r.
  - rewrite IH, odict_setitem_keys, filter_cons.
    destruct (decide (x ∈ d.*1)) as [Hin|Hnin].
    + rewrite decide_False by naive_solver. f_equal.
      rewrite list_filter_filter. apply list_filter_iff.
      intros z. destruct (decide (z = x)) as [->|]; naive_solver.
    + rewrite decide_True by done. rewrite <-app_assoc. simpl. do 2 f_equal.
      rewrite list_filter_filter. apply list_filter_iff.
      intros z. rewrite elem_of_app, list_elem_of_singleton. naive_solver.
Qed.

Lemma dict_fromkeys_dedup_first l :
  list_of_dict (dict_fromkeys l) = dedup_first l.
Proof.
  unfold list_of_dict, dict_fromkeys. rewrite fromkeys_keys. simpl.
  apply filter_all. intros x _. apply not_elem_of_nil.
Qed.

Lemma NoDup_filter_eq_length x l :
  NoDup l → x ∈ l → length (filter (λ y, y = x) l) = 1.
Proof.
  induction 1 as [|y l Hy Hnd IH]; [by intros ?%elem_of_nil|].
  rewrite filter_cons. destruct (decide (y = x)) as [->|Hne].
  - intros _. simpl. f_equal. apply length_zero_iff_nil.
    apply filter_none. by intros z Hz ->.
  - intros [?|Hin]%elem_of_cons; [congruence|]. by apply IH.
Qed.


Lemma normalize_members_eq c ms :
  normalize_members c ms = dedup_first (ms ++ [c]).
Proof.
  unfold normalize_members. by rewrite list_or_nil, dict_fromkeys_dedup_first.
Qed.

Lemma elem_of_normalize_members x c ms :
  x ∈ normalize_members c ms ↔ x ∈ ms ∨ x = c.
Proof.
  rewrite normalize_members_eq, elem_of_dedup_first, elem_of_app.
  by rewrite list_elem_of_singleton.
Qed.

(** A validated payload is stored as a group with the normalised members. *)
Lemma create_group_accepts `{EmailValidator} (p : CreateGroup.t) (st : Store) :
  CreateGroup_wf p →
  create_group p st
  = (Ok (length st), st ++ [group_record (length st) (group_of p)]).
Proof.
  intros [Hc Hms]. unfold create_group, mbind, M_bind, Group.new; simpl.
  rewrite Hc. unfold nested. rewrite validate_emails_normalised; [done|].
  apply Forall_forall. intros x [Hx| ->]%elem_of_normalize_members; [|done].
  by eapply Forall_forall in Hms.
Qed.

(** C5.  The member list of group creation is the members followed by the
    creator, with every address kept at its first occurrence only: it has no
    duplicates, contains the creator exactly once, contains exactly the
    members and the creator, and keeps the order of the input.  It is the
    member list of the group that is stored. *)
Theorem normalize_members_first_occurrences `{EmailValidator}
    (created_by : string) (members : list string) :
  normalize_members created_by members
  = dedup_first (members ++ [created_by])
  ∧ NoDup (normalize_members created_by members)
  ∧ length (filter (λ y, y = created_by)
                   (normalize_members created_by members)) = 1
  ∧ (∀ x, x ∈ normalize_members created_by members
          ↔ x ∈ members ∨ x = created_by)
  ∧ normalize_members created_by members
    `sublist_of` members ++ [created_by]
  ∧ filter (λ y, y ≠ created_by) (normalize_members created_by members)
    = dedup_first (filter (λ y, y ≠ created_by) members)
  ∧ ∀ (p : CreateGroup.t) (st : Store),
      CreateGroup_wf p →
      CreateGroup.created_by p = created_by →
      CreateGroup.members p = members →
      ∃ g, create_group p st
           = (Ok (length st), st ++ [group_record (length st) g])
           ∧ Group.members g = normalize_members created_by members.
Proof.
  pose proof (normalize_members_eq created_by members) as Heq.
  split; [done|]. split; [|split; [|split; [|split; [|split]]]].
  - rewrite Heq. apply NoDup_dedup_first.
  - apply NoDup_filter_eq_length.
    + rewrite Heq. apply NoDup_dedup_first.
    + apply elem_of_normalize_members. by right.
  - intros x. apply elem_of_normalize_members.
  - rewrite Heq. apply dedup_first_sublist.
  - rewrite Heq, filter_dedup_first, filter_app.
    by rewrite filter_cons_False, filter_nil, app_nil_r by naive_solver.
  - intros p st Hwf <- <-. exists (group_of p).
    split; [by apply create_group_accepts|done].
Qed.

Lemma normalize_members_first_occurrences_witness :
  normalize_members alice [bob; alice; bob] = [bob; alice]
  ∧ @CreateGroup_wf example_validator payload_group
  ∧ ∃ g, @create_group example_validator payload_group []
         = (Ok 0, [] ++ [group_record 0 g])
       ∧ Group.members g = normalize_members alice [bob; alice; bob].
Proof.
  assert (@CreateGroup_wf example_validator payload_group) as Hwf
    by (split; [reflexivity|repeat constructor]).
  split; [reflexivity|]. split; [exact Hwf|].
  exact (proj2 (proj2 (proj2 (proj2 (proj2 (proj2
    (@normalize_members_first_occurrences example_validator
       alice [bob; alice; bob])))))) payload_group [] Hwf eq_refl eq_refl).
Defined.

End members.

(** ** Constructing the models *)

Section construction.
Context `{EmailValidator}.

Lemma required_str_Ok (name : string) (v : option string) :
  is_Ok (required_str name v) ↔ is_Some v.
Proof. destruct v; simpl; [by split; eauto|]. split; [done|]. by intros []. Qed.

Lemma required_email_Ok (name : string) (v : option string) :
  is_Ok (required_email name v) ↔ email_shaped v.
Proof.
  unfold required_email, email_shaped. destruct v as [s|]; simpl.
  - destruct (validate_email s) eqn:Hs; simpl.
    + split; [|done]. intros _. exists s. by rewrite Hs.
    + split; [done|]. intros (s' & [= <-] & Hs'). rewrite Hs in Hs'.
      by destruct Hs'.
  - split; [done|]. by intros (s' & ? & _).
Qed.

Lemma required_float_gt0_Ok (name : string) (v : option float) :
  is_Ok (required_float_gt0 name v)
  ↔ ∃ x, v = Some x ∧ (0 <? x)%float = true.
Proof.
  unfold required_float_gt0. destruct v as [x|]; simpl.
  - destruct (0 <? x)%float eqn:Hx; simpl.
    + split; [|done]. intros _. by exists x.
    + split; [done|]. intros (y & [= <-] & Hy). congruence.
  - split; [done|]. by intros (y & ? & _).
Qed.

Lemma default_float_ge0_Ok (name : string) (d : float) (v : option float) :
  is_Ok (default_float_ge0 name d v)
  ↔ ∀ x, v = Some x → (0 <=? x)%float = true.
Proof.
  unfold default_float_ge0. destruct v as [x|]; simpl; [|done].
  destruct (0 <=? x)%float eqn:Hx; simpl.
  - split; [|done]. by intros _ y [= <-].
  - split; [done|]. intros Hy. specialize (Hy x eq_refl). congruence.
Qed.

Lemma split_type_of_string_Some (s : string) :
  is_Some (SplitItem.split_type_of_string s)
  ↔ s ∈ ["equal"; "exact"; "percentage"].
Proof.
  unfold SplitItem.split_type_of_string. rewrite !elem_of_cons, elem_of_nil.
  repeat case_decide; split; eauto; intros H'; try (by destruct H');
    naive_solver.
Qed.

Lemma validate_type_Ok (v : option string) :
  is_Ok (SplitItem.validate_type v)
  ↔ ∀ s, v = Some s → s ∈ ["equal"; "exact"; "percentage"].
Proof.
  unfold SplitItem.validate_type. destruct v as [s|]; simpl; [|done].
  pose proof (split_type_of_string_Some s) as Hs.
  destruct (SplitItem.split_type_of_string s); simpl.
  - split; [|done]. intros _ ? [= <-]. apply Hs. eauto.
  - split; [done|]. intros Hs'. by apply Hs, is_Some_None in Hs'.
Qed.

Lemma SplitItem_new_Ok (a : SplitItem.kwargs) :
  is_Ok (SplitItem.new a) ↔ SplitItem_constraints a.
Proof.
  unfold SplitItem_constraints.
  rewrite <-(required_email_Ok "user"), <-validate_type_Ok,
    <-(default_float_ge0_Ok "share" 0).
  unfold SplitItem.new. cbv zeta.
  destruct (required_email _ _), (SplitItem.validate_type _),
    (default_float_ge0 _ _ _); simpl; tauto.
Qed.

Lemma validate_list_Ok (i : nat) (l : list SplitItem.input) :
  is_Ok (SplitItem.validate_list_from i l) ↔ Forall input_constraints l.
Proof.
  revert i. induction l as [|x l IH]; intros i; simpl; [done|].
  rewrite Forall_cons, <-(IH (S i)).
  assert (is_Ok (SplitItem.validate x) ↔ input_constraints x) as <-.
  { destruct x; simpl; [done|]. apply SplitItem_new_Ok. }
  destruct (SplitItem.validate x), (SplitItem.validate_list_from (S i) l);
    simpl; tauto.
Qed.

Lemma validate_emails_Ok (i : nat) (l : list string) :
  is_Ok (validate_emails_from i l)
  ↔ Forall (λ m, is_Some (validate_email m)) l.
Proof.
  revert i. induction l as [|x l IH]; intros i; simpl; [done|].
  rewrite Forall_cons, <-(IH (S i)).
  destruct (validate_email x), (validate_emails_from (S i) l); simpl;
    split; try tauto; try (by intros [[]%is_Some_None _]); eauto.
Qed.

Lemma nested_Ok {A} (p : loc_item) (r : result error_list A) :
  is_Ok (nested p r) ↔ is_Ok r.
Proof. by destruct r. Qed.

Lemma Expense_new_Ok (a : Expense.kwargs) :
  is_Ok (Expense.new a) ↔ Expense_constraints a.
Proof.
  unfold Expense_constraints.
  rewrite <-(required_str_Ok "group_id"), <-(required_str_Ok "description"),
    <-(required_float_gt0_Ok "amount"), <-(required_email_Ok "paid_by").
  assert (is_Ok (Expense.validate_splits (Expense.kw_splits a))
          ↔ ∀ l, Expense.kw_splits a = Some l → Forall input_constraints l)
    as <-.
  { unfold Expense.validate_splits. destruct (Expense.kw_splits a) as [l|].
    - rewrite nested_Ok. unfold SplitItem.validate_list.
      rewrite validate_list_Ok. naive_solver.
    - simpl. naive_solver. }
  unfold Expense.new. cbv zeta.
  destruct (required_str "group_id" _), (required_str "description" _),
    (required_float_gt0 _ _), (required_email _ _),
    (Expense.validate_splits _); simpl; tauto.
Qed.

Lemma required_emails_Ok (name : string) (v : option (list string)) :
  is_Ok (required_emails name v)
  ↔ ∃ l, v = Some l ∧ Forall (λ m, is_Some (validate_email m)) l.
Proof.
  unfold required_emails. destruct v as [l|]; simpl.
  - rewrite nested_Ok, validate_emails_Ok. naive_solver.
  - naive_solver.
Qed.

Lemma Group_new_Ok (a : Group.kwargs) :
  is_Ok (Group.new a) ↔ Group_constraints a.
Proof.
  unfold Group_constraints.
  rewrite <-(required_str_Ok "name"), <-(required_email_Ok "created_by"),
    <-(required_emails_Ok "members").
  unfold Group.new. cbv zeta.
  destruct (required_str _ _), (required_email _ _), (required_emails _ _);
    simpl; tauto.
Qed.

Lemma Appuser_new_Ok (a : Appuser.kwargs) :
  is_Ok (Appuser.new a) ↔ Appuser_constraints a.
Proof.
  unfold Appuser_constraints.
  rewrite <-(required_str_Ok "name"), <-(required_email_Ok "email").
  unfold Appuser.new. cbv zeta.
  destruct (required_str _ _), (required_email _ _); simpl; tauto.
Qed.

Ltac some_error_is_reported :=
  simpl in *; try done;
  let Hnil := fresh "Hnil" in
  intros Hnil; repeat (apply app_eq_nil in Hnil as [? Hnil]); done.

Lemma nested_reports_errors {A} (p : loc_item) (r : result error_list A) :
  reports_errors r → reports_errors (nested p r).
Proof.
  destruct r as [|es]; simpl; [done|]. unfold under.
  intros Hes Hnil. by apply fmap_nil_inv in Hnil.
Qed.

Lemma required_email_reports_errors (name : string) (v : option string) :
  reports_errors (required_email name v).
Proof.
  unfold required_email. destruct v as [s|]; [|done].
  by destruct (validate_email s).
Qed.

Lemma SplitItem_new_reports_errors (a : SplitItem.kwargs) :
  reports_errors (SplitItem.new a).
Proof.
  pose proof (required_email_reports_errors "user" (SplitItem.kw_user a)).
  assert (reports_errors (SplitItem.validate_type (SplitItem.kw_type a))).
  { unfold SplitItem.validate_type. destruct (SplitItem.kw_type a) as [s|];
      [|done]. by destruct (SplitItem.split_type_of_string s). }
  assert (reports_errors
            (default_float_ge0 "share" 0 (SplitItem.kw_share a))).
  { unfold default_float_ge0. destruct (SplitItem.kw_share a) as [x|];
      [|done]. by destruct (0 <=? x)%float. }
  unfold SplitItem.new. cbv zeta.
  destruct (required_email _ _), (SplitItem.validate_type _),
    (default_float_ge0 _ _ _); some_error_is_reported.
Qed.

Lemma validate_list_reports_errors (i : nat) (l : list SplitItem.input) :
  reports_errors (SplitItem.validate_list_from i l).
Proof.
  revert i. induction l as [|x l IH]; intros i; simpl; [done|].
  specialize (IH (S i)).
  assert (reports_errors (SplitItem.validate x)) as Hx.
  { destruct x; simpl; [done|]. apply SplitItem_new_reports_errors. }
  destruct (SplitItem.validate x) as [|es],
    (SplitItem.validate_list_from (S i) l); simpl in *; try done;
    unfold under; intros [Hnil ?]%app_eq_nil; try done;
    by apply fmap_nil_inv in Hnil.
Qed.

Lemma validate_emails_reports_errors (i : nat) (l : list string) :
  reports_errors (validate_emails_from i l).
Proof.
  revert i. induction l as [|x l IH]; intros i; simpl; [done|].
  specialize (IH (S i)).
  destruct (validate_email x), (validate_emails_from (S i) l);
    some_error_is_reported.
Qed.

Lemma required_emails_reports_errors (name : string)
    (v : option (list string)) :
  reports_errors (required_emails name v).
Proof.
  unfold required_emails. destruct v as [l|]; [|done].
  apply nested_reports_errors, validate_emails_reports_errors.
Qed.

Lemma required_str_reports_errors (name : string) (v : option string) :
  reports_errors (required_str name v).
Proof. by destruct v. Qed.

Lemma Expense_new_reports_errors (a : Expense.kwargs) :
  reports_errors (Expense.new a).
Proof.
  pose proof (required_str_reports_errors "group_id" (Expense.kw_group_id a)).
  pose proof (required_str_reports_errors "description"
                (Expense.kw_description a)).
  pose proof (required_email_reports_errors "paid_by" (Expense.kw_paid_by a)).
  assert (reports_errors (required_float_gt0 "amount" (Expense.kw_amount a))).
  { unfold required_float_gt0. destruct (Expense.kw_amount a) as [x|];
      [|done]. by destruct (0 <? x)%float. }
  assert (reports_errors (Expense.validate_splits (Expense.kw_splits a))).
  { unfold Expense.validate_splits. destruct (Expense.kw_splits a) as [l|];
      [|done]. apply nested_reports_errors, validate_list_reports_errors. }
  unfold Expense.new. cbv zeta.
  destruct (required_str "group_id" _), (required_str "description" _),
    (required_float_gt0 _ _), (required_email _ _),
    (Expense.validate_splits _); some_error_is_reported.
Qed.

Lemma Group_new_reports_errors (a : Group.kwargs) :
  reports_errors (Group.new a).
Proof.
  pose proof (required_str_reports_errors "name" (Group.kw_name a)).
  pose proof (required_email_reports_errors "created_by"
                (Group.kw_created_by a)).
  pose proof (required_emails_reports_errors "members" (Group.kw_members a)).
  unfold Group.new. cbv zeta.
  destruct (required_str _ _), (required_email _ _), (required_emails _ _);
    some_error_is_reported.
Qed.

Lemma Appuser_new_reports_errors (a : Appuser.kwargs) :
  reports_errors (Appuser.new a).
Proof.
  pose proof (required_str_reports_errors "name" (Appuser.kw_name a)).
  pose proof (required_email_reports_errors "email" (Appuser.kw_email a)).
  unfold Appuser.new. cbv zeta.
  destruct (required_str _ _), (required_email _ _); some_error_is_reported.
Qed.

(** C7 (as amended).  A model is constructed exactly when every constraint
    on its fields holds, whatever the store holds: required fields are
    supplied (a required text may be empty), amounts are greater than 0 and
    shares at least 0, identity fields are addresses, and [type] is one of
    the three literals.  Otherwise the construction fails as a whole with
    the list of violations, which is not empty, and there is no model. *)
Theorem construction_enforces_field_constraints :
  (∀ a, is_Ok (SplitItem.new a) ↔ SplitItem_constraints a)
  ∧ (∀ a, is_Ok (Expense.new a) ↔ Expense_constraints a)
  ∧ (∀ a, is_Ok (Group.new a) ↔ Group_constraints a)
  ∧ (∀ a, is_Ok (Appuser.new a) ↔ Appuser_constraints a)
  ∧ (∀ a, reports_errors (SplitItem.new a))
  ∧ (∀ a, reports_errors (Expense.new a))
  ∧ (∀ a, reports_errors (Group.new a))
  ∧ (∀ a, reports_errors (Appuser.new a))
  ∧ (∀ a s, SplitItem.new a = Ok s →
            (0 <=? SplitItem.share s)%float = true)
  ∧ (∀ a e, Expense.new a = Ok e → (0 <? Expense.amount e)%float = true).
Proof.
  split; [exact SplitItem_new_Ok|]. split; [exact Expense_new_Ok|].
  split; [exact Group_new_Ok|]. split; [exact Appuser_new_Ok|].
  split; [exact SplitItem_new_reports_errors|].
  split; [exact Expense_new_reports_errors|].
  split; [exact Group_new_reports_errors|].
  split; [exact Appuser_new_reports_errors|].
  split; [|exact Expense_new_amount].
  intros a s Hs. by apply SplitItem_new_wf in Hs as [_ ?].
Qed.

End construction.

(** C7, counterexample.  A group with the empty name and an expense with
    the empty description are constructed. *)
Lemma empty_texts_are_constructed :
  @Group.new example_validator group_with_empty_name
  = Ok {| Group.name := ""; Group.created_by := alice;
          Group.members := [alice]; Group.default_currency := "USD";
          Group.image_url := None |}
  ∧ @Expense.new example_validator expense_with_empty_description
    = Ok {| Expense.group_id := ""; Expense.description := "";
            Expense.amount := 5; Expense.currency := "USD";
            Expense.paid_by := alice; Expense.date := None;
            Expense.splits := []; Expense.notes := None |}.
Proof. split; reflexivity. Qed.

(** ** Serializing a document *)

Section serialization.
Variable str : value → string.
Variable isoformat : datetime → string.
Implicit Types (h : gmap nat (gmap string value)) (m : gmap string value).

(** The loop rewrites the dict at [d] item by item. *)
Lemma for_each_isoformat (items : list (string * value)) (d : nat) h m :
  h !! d = Some m →
  for_each items (λ '(k, v),
    match v with
    | VDatetime t => dict_setitem d k (VStr (isoformat t))
    | _ => mret ()
    end) h
  = (Ok (), <[d := foldl (isoformat_item isoformat) m items]> h).
Proof.
  revert h m. induction items as [|[k v] items IH]; intros h m Hd; simpl.
  - by rewrite insert_id.
  - unfold mbind, M_bind.
    destruct v; simpl; try (by apply IH).
    unfold dict_setitem at 1. rewrite lookup_total_alt, Hd. simpl.
    erewrite IH by apply lookup_insert_eq.
    by rewrite insert_insert_eq.
Qed.

(** Rewriting the items of a list without repeated keys one by one. *)
Lemma foldl_isoformat_item_lookup (l : list (string * value)) m (k : string) :
  NoDup l.*1 →
  foldl (isoformat_item isoformat) m l !! k
  = match (list_to_map l : gmap string value) !! k with
    | Some (VDatetime t) => Some (VStr (isoformat t))
    | _ => m !! k
    end.
Proof.
  revert m. induction l as [|[k1 v1] l IH]; intros m Hnd; [done|].
  apply NoDup_cons in Hnd as [Hk1 Hnd]. cbn [foldl].
  rewrite IH by done. rewrite list_to_map_cons.
  destruct (decide (k = k1)) as [->|Hne].
  - rewrite lookup_insert_eq, (not_elem_of_list_to_map_1 l k1 Hk1).
    unfold isoformat_item. simpl.
    destruct v1; try done. by rewrite lookup_insert_eq.
  - rewrite lookup_insert_ne by done.
    assert (isoformat_item isoformat m (k1, v1) !! k = m !! k) as ->; [|done].
    unfold isoformat_item. simpl.
    destruct v1; try done. by rewrite lookup_insert_ne.
Qed.

Lemma foldl_isoformat_item_items m :
  foldl (isoformat_item isoformat) m (map_to_list m) = textual isoformat <$> m.
Proof.
  apply map_eq. intros k.
  rewrite foldl_isoformat_item_lookup by apply NoDup_fst_map_to_list.
  rewrite list_to_map_to_list, lookup_fmap.
  destruct (m !! k) as [v|] eqn:Hk; [|done]. by destruct v.
Qed.

(** The run of [serialize_doc] on a reference: the empty dict is returned
    itself; otherwise a new dict is allocated, whose items are the
    serialized items of the argument. *)
Lemma serialize_doc_run (a : nat) h :
  serialize_doc str isoformat (Some a) h
  = if decide (size (h !!! a) = 0) then (Ok (Some a), h)
    else (Ok (Some (fresh (dom h))),
          <[fresh (dom h) := serialized str isoformat (h !!! a)]> h).
Proof.
  unfold serialize_doc, mbind, M_bind, dict_len.
  destruct (decide (size (h !!! a) = 0)) as [Hz|Hnz]; [done|].
  set (d := fresh (dom h)). set (m := h !!! a).
  unfold dict_copy, dict_pop, dict_items. fold d. fold m.
  rewrite lookup_total_insert_eq, insert_insert_eq.
  assert (∀ m' : gmap string value,
            (<[d:=m']> h) !!! d = m') as Hd
    by (intros; apply lookup_total_insert_eq).
  unfold serialized. fold m.
  destruct (default VNone (m !! "_id")) eqn:Hid;
    unfold dict_setitem, mret, M_ret; cbn beta iota;
    rewrite ?Hd, ?insert_insert_eq;
    match goal with
    | |- context [for_each ?items _ ?h0] =>
        pose proof (for_each_isoformat items d h0 _ (lookup_insert_eq _ _ _))
          as Hloop
    end;
    unfold dict_setitem, mret, M_ret in Hloop; rewrite Hloop;
    by rewrite insert_insert_eq, ?Hd, foldl_isoformat_item_items.
Qed.

Lemma serialized_lookup_id_field m :
  serialized str isoformat m !! "_id" = None.
Proof.
  unfold serialized. rewrite lookup_fmap.
  destruct (default VNone (m !! "_id"));
    by rewrite ?lookup_insert_ne, lookup_delete_eq by done.
Qed.

Lemma serialized_lookup_id m (v : value) :
  m !! "_id" = Some v → v ≠ VNone →
  serialized str isoformat m !! "id" = Some (VStr (str v)).
Proof.
  intros Hv Hne. unfold serialized. rewrite lookup_fmap, Hv. simpl.
  destruct v; try done; by rewrite lookup_insert_eq.
Qed.

Lemma serialized_lookup_other m (k : string) :
  k ≠ "_id" → k ≠ "id" →
  serialized str isoformat m !! k = textual isoformat <$> m !! k.
Proof.
  intros H1 H2. unfold serialized. rewrite lookup_fmap.
  destruct (default VNone (m !! "_id"));
    by rewrite ?lookup_insert_ne, lookup_delete_ne by done.
Qed.

Lemma serialized_lookup_no_id m :
  default VNone (m !! "_id") = VNone →
  serialized str isoformat m !! "id" = textual isoformat <$> m !! "id".
Proof.
  intros Hid. unfold serialized. rewrite lookup_fmap, Hid.
  by rewrite lookup_delete_ne.
Qed.

(** C8.  Serializing [None] gives [None].  Serializing a document gives a
    document without the key [_id]; the value of [_id], unless it is [None],
    is under the key [id] as text; of the other fields, those holding a
    datetime hold its ISO text and the rest hold what they held, and no
    field is added.  Without an identifier, [id] is a field like the
    others. *)
Theorem serialize_doc_renames_id_and_formats_datetimes (doc : option nat) h :
  ∃ r h', serialize_doc str isoformat doc h = (Ok r, h')
    ∧ match doc with
      | None => r = None
      | Some a =>
          ∃ b, r = Some b
            ∧ (h' !!! b) !! "_id" = None
            ∧ (∀ v, (h !!! a) !! "_id" = Some v → v ≠ VNone →
                    (h' !!! b) !! "id" = Some (VStr (str v)))
            ∧ (∀ k t, k ≠ "_id" → k ≠ "id" →
                      (h !!! a) !! k = Some (VDatetime t) →
                      (h' !!! b) !! k = Some (VStr (isoformat t)))
            ∧ (∀ k v, k ≠ "_id" → k ≠ "id" →
                      (h !!! a) !! k = Some v → (∀ t, v ≠ VDatetime t) →
                      (h' !!! b) !! k = Some v)
            ∧ (∀ k, k ≠ "_id" → k ≠ "id" →
                    (h !!! a) !! k = None → (h' !!! b) !! k = None)
            ∧ (default VNone ((h !!! a) !! "_id") = VNone →
               (h' !!! b) !! "id" = textual isoformat <$> (h !!! a) !! "id")
      end.
Proof.
  destruct doc as [a|]; [|by exists None, h].
  rewrite serialize_doc_run.
  destruct (decide (size (h !!! a) = 0)) as [Hz|Hnz].
  - exists (Some a), h. split; [done|]. exists a. split; [done|].
    apply map_size_empty_inv in Hz. rewrite Hz.
    repeat split; intros; by rewrite ?lookup_empty in *.
  - eexists _, _. split; [done|]. eexists. split; [done|].
    rewrite lookup_total_insert_eq.
    split; [apply serialized_lookup_id_field|].
    split; [apply serialized_lookup_id|].
    split; [|split; [|split]].
    + intros k t H1 H2 Hk. by rewrite serialized_lookup_other, Hk.
    + intros k v H1 H2 Hk Hv. rewrite serialized_lookup_other, Hk by done.
      simpl. f_equal. destruct v; try done. by destruct (Hv t).
    + intros k H1 H2 Hk. by rewrite serialized_lookup_other, Hk.
    + apply serialized_lookup_no_id.
Qed.

(** C10.  Serialization leaves every dict of the heap as it was, its
    argument among them: what it changes is a copy, a new object, unless the
    argument is empty. *)
Theorem serialize_doc_leaves_argument_unchanged
    (doc : option nat) h (a : nat) m :
  h !! a = Some m →
  (serialize_doc str isoformat doc h).2 !! a = Some m
  ∧ (doc = Some a → m ≠ ∅ →
     ∃ b, (serialize_doc str isoformat doc h).1 = Ok (Some b)
          ∧ b ≠ a ∧ h !! b = None).
Proof.
  intros Ha.
  assert (fresh (dom h) ≠ a) as Hfresh.
  { intros Heq. apply (is_fresh (dom h)). rewrite Heq.
    apply elem_of_dom. by exists m. }
  split.
  - destruct doc as [a'|]; [|done]. rewrite serialize_doc_run.
    destruct (decide (size (h !!! a') = 0)); simpl; [done|].
    by rewrite lookup_insert_ne.
  - intros -> Hm. rewrite serialize_doc_run.
    rewrite lookup_total_alt, Ha. simpl.
    rewrite decide_False by by apply map_size_non_empty_iff.
    exists (fresh (dom h)). split; [done|]. split; [done|].
    apply not_elem_of_dom, is_fresh.
Qed.

End serialization.

Lemma serialize_doc_leaves_argument_unchanged_witness :
  example_heap !! 0 = Some example_doc
  ∧ (serialize_doc example_str example_isoformat (Some 0) example_heap).2 !! 0
    = Some example_doc
  ∧ ∃ b, (serialize_doc example_str example_isoformat (Some 0) example_heap).1
         = Ok (Some b)
       ∧ b ≠ 0 ∧ example_heap !! b = None.
Proof.
  assert (example_heap !! 0 = Some example_doc) as Hdoc by reflexivity.
  assert (example_doc ≠ ∅) as Hne by (intros Heq; discriminate
    (f_equal (λ m : gmap string value, m !! "name") Heq)).
  split; [exact Hdoc|].
  destruct (serialize_doc_leaves_argument_unchanged example_str
              example_isoformat (Some 0) example_heap 0 example_doc Hdoc)
    as [Hsame Hcopy].
  split; [exact Hsame|]. exact (Hcopy eq_refl Hne).
Defined.

(** The stored group document of the examples, serialized. *)
Example serialized_example_doc :
  serialized example_str example_isoformat example_doc
  = {[ "id" := VStr "65f0c0ffee";
       "name" := VStr "flat";
       "members" := VList [VStr alice; VStr bob];
       "created_at" := VStr "2024-05-01T12:00:00" ]}.
Proof. by vm_compute. Qed.

(** * Further properties of the handlers and models *)

(** ** Floats that are not numbers *)

Lemma float_nan_incomparable (x : float) :
  is_nan x = true → (x <=? 0)%float = false ∧ (0 <? x)%float = false.
Proof.
  unfold is_nan.
  rewrite FloatAxioms.eqb_spec, FloatAxioms.ltb_spec, FloatAxioms.leb_spec.
  change (Prim2SF 0) with (S754_zero false).
  unfold SFeqb, SFltb, SFleb.
  destruct (Prim2SF x) as [s|s| |s m e]; simpl; try destruct s; simpl;
    try done.
  all: rewrite Z.compare_refl; fold (Pos.compare m m);
    rewrite Pos.compare_refl; done.
Qed.

(** ** Outcomes of [create_expense] *)

Section expense_outcomes.
Context `{EmailValidator}.

(** X1.  Whatever the payload, a call that fails leaves the store as it
    was, and it fails with status 400 exactly when the guard on the amount
    fires, otherwise with the validation errors of [Expense]; a call that
    succeeds adds one record for an expense after the records already
    stored. *)
Theorem create_expense_outcomes (p : CreateExpense.t) (st : Store) :
  match create_expense p st with
  | (Err (HTTPException code detail), st') =>
      st' = st ∧ code = 400%Z
      ∧ (CreateExpense.amount p <=? 0)%float = true
  | (Err (ValidationError es), st') =>
      st' = st
      ∧ (CreateExpense.amount p <=? 0)%float = false
      ∧ Expense.new (expense_kwargs p) = Err es
  | (Ok eid, st') =>
      (CreateExpense.amount p <=? 0)%float = false
      ∧ ∃ e, Expense.new (expense_kwargs p) = Ok e
             ∧ st' = st ++ [expense_record eid e]
  end.
Proof.
  unfold create_expense.
  destruct (CreateExpense.amount p <=? 0)%float eqn:Hle; [done|].
  unfold mbind, M_bind.
  destruct (Expense.new (expense_kwargs p)) as [e|es]; simpl; [|done].
  split; [done|]. by exists e.
Qed.

(** X2.  For a validated payload the call succeeds exactly when the amount
    is greater than 0. *)
Theorem create_expense_succeeds_iff_positive
    (p : CreateExpense.t) (st : Store) :
  CreateExpense_wf p →
  (∃ eid st', create_expense p st = (Ok eid, st'))
  ↔ (0 <? CreateExpense.amount p)%float = true.
Proof.
  intros Hwf. split.
  - intros (eid & st' & Hrun).
    destruct (create_expense_Ok_inv _ _ _ _ Hrun) as (e & He & _).
    by apply Expense_new_payload in He as [? _].
  - intros Hgt. eexists _, _. by apply create_expense_accepts.
Qed.

(** X3.  An amount that is not a number passes the guard of the handler and
    is rejected by [Expense]: the call fails with a validation error on the
    field [amount], not with status 400, and stores nothing. *)
Theorem create_expense_nan_amount (p : CreateExpense.t) (st : Store) :
  is_nan (CreateExpense.amount p) = true →
  ∃ es, create_expense p st = (Err (ValidationError es), st)
        ∧ {| loc := [Field "amount"]; violated := NotGreaterThan0 |} ∈ es.
Proof.
  intros [Hle Hgt]%float_nan_incomparable.
  destruct (Expense_new_rejects_amount (expense_kwargs p)
              (CreateExpense.amount p) eq_refl Hgt) as (es & Hes & Hin).
  exists es. split; [|done].
  unfold create_expense. rewrite Hle. unfold mbind, M_bind. by rewrite Hes.
Qed.

(** X4.  The request model requires [splits], which the stored model does
    not: a request without splits is rejected as missing the field, while an
    [Expense] constructed without splits has the empty list. *)
Theorem splits_required_by_request_only :
  (∀ a, CreateExpense.kw_splits a = None →
        ∃ es, CreateExpense.new a = Err es
              ∧ {| loc := [Field "splits"]; violated := Missing |} ∈ es)
  ∧ (∀ a e, Expense.kw_splits a = None →
            Expense.new a = Ok e → Expense.splits e = []).
Proof.
  split.
  - intros a Ha. unfold CreateExpense.new, CreateExpense.required_splits.
    rewrite Ha.
    destruct (required_str "group_id" _), (required_str "description" _),
      (required_float "amount" _), (required_email "paid_by" _);
      eexists; (split; [reflexivity|]); simpl;
      rewrite ?elem_of_app, ?elem_of_cons; auto 10.
  - intros a e Ha. unfold Expense.new, Expense.validate_splits. rewrite Ha.
    destruct (required_str "group_id" _), (required_str "description" _),
      (required_float_gt0 "amount" _), (required_email "paid_by" _);
      try done.
    by intros [= <-].
Qed.

End expense_outcomes.

Lemma create_expense_succeeds_iff_positive_witness :
  @CreateExpense_wf example_validator payload_exact_10_of_100
  ∧ ((∃ eid st',
        @create_expense example_validator payload_exact_10_of_100 []
        = (Ok eid, st'))
     ↔ (0 <? CreateExpense.amount payload_exact_10_of_100)%float = true).
Proof.
  assert (@CreateExpense_wf example_validator payload_exact_10_of_100) as Hwf
    by (split; [reflexivity|repeat constructor]).
  split; [exact Hwf|].
  exact (@create_expense_succeeds_iff_positive example_validator
           payload_exact_10_of_100 [] Hwf).
Defined.

Lemma create_expense_nan_amount_witness :
  is_nan (CreateExpense.amount payload_nan_amount) = true
  ∧ ∃ es, @create_expense example_validator payload_nan_amount []
          = (Err (ValidationError es), [])
        ∧ {| loc := [Field "amount"]; violated := NotGreaterThan0 |} ∈ es.
Proof.
  split; [reflexivity|].
  exact (@create_expense_nan_amount example_validator payload_nan_amount []
           eq_refl).
Defined.

(** ** Validation reports *)

Section reports.
Context `{EmailValidator}.



Lemma validate_list_locates_errors (l : list SplitItem.input) (i0 i : nat)
    (a : SplitItem.kwargs) (esa : error_list) (e : error_detail) :
  l !! i = Some (SplitItem.Mapping a) →
  SplitItem.new a = Err esa → e ∈ esa →
  ∃ es, SplitItem.validate_list_from i0 l = Err es
        ∧ {| loc := Index (i0 + i) :: loc e; violated := violated e |} ∈ es.
Proof.
  revert i0 i. induction l as [|x l IH]; intros i0 i Hi Ha He; [done|].
  destruct i as [|i]; simpl in Hi.
  - injection Hi as ->. simpl. rewrite Ha. simpl.
    eexists. split; [reflexivity|].
    rewrite Nat.add_0_r, elem_of_app. left. unfold under.
    apply list_elem_of_fmap. by exists e.
  - destruct (IH (S i0) i Hi Ha He) as (es' & Hes' & Hin).
    simpl. rewrite Hes'. replace (i0 + S i) with (S i0 + i) by lia.
    destruct (SplitItem.validate x); simpl;
      (eexists; split; [reflexivity|]); rewrite ?elem_of_app; auto.
Qed.

(** X6.  A violation in the element at position [i] of the splits makes the
    construction of the [Expense] fail, and is reported under the path
    [splits], [i], followed by the path inside the element. *)
Theorem Expense_new_locates_split_errors
    (a : Expense.kwargs) (l : list SplitItem.input) (i : nat)
    (sa : SplitItem.kwargs) (esa : error_list) (e : error_detail) :
  Expense.kw_splits a = Some l →
  l !! i = Some (SplitItem.Mapping sa) →
  SplitItem.new sa = Err esa → e ∈ esa →
  ∃ es, Expense.new a = Err es
        ∧ {| loc := Field "splits" :: Index i :: loc e;
             violated := violated e |} ∈ es.
Proof.
  intros Ha Hi Hsa He.
  destruct (validate_list_locates_errors l 0 i sa esa e Hi Hsa He)
    as (es' & Hes' & Hin).
  unfold Expense.new, Expense.validate_splits, SplitItem.validate_list.
  rewrite Ha, Hes'. simpl.
  assert ({| loc := Field "splits" :: Index i :: loc e;
             violated := violated e |} ∈ under (Field "splits") es') as Hin'.
  { unfold under. apply list_elem_of_fmap.
    by exists {| loc := Index (0 + i) :: loc e; violated := violated e |}. }
  destruct (required_str "group_id" _), (required_str "description" _),
    (required_float_gt0 "amount" _), (required_email "paid_by" _);
    eexists; (split; [reflexivity|]); simpl;
    rewrite ?elem_of_app; auto 10.
Qed.

End reports.


Lemma Expense_new_locates_split_errors_witness :
  ∃ es, @Expense.new example_validator expense_with_negative_share = Err es
        ∧ {| loc := [Field "splits"; Index 1; Field "share"];
             violated := NotGreaterEqual0 |} ∈ es.
Proof.
  refine (@Expense_new_locates_split_errors example_validator
            expense_with_negative_share _ 1
            (split_request bob "exact" (Some (-1)%float))
            [ {| loc := [Field "share"]; violated := NotGreaterEqual0 |} ]
            {| loc := [Field "share"]; violated := NotGreaterEqual0 |}
            eq_refl eq_refl eq_refl _).
  apply list_elem_of_here.
Defined.

(** ** Groups from requests *)

Section group_requests.
Context `{EmailValidator}.
Implicit Types (l ms : list string) (x c : string).

Lemma validate_emails_Forall2 (i : nat) l l' :
  validate_emails_from i l = Ok l' →
  Forall2 (λ r x, validate_email r = Some x) l l'.
Proof.
  revert i l'. induction l as [|r l IH]; intros i l'; simpl.
  - intros [= <-]. constructor.
  - destruct (validate_email r) as [x|] eqn:Hr; [|done].
    destruct (validate_emails_from (S i) l) as [xs|] eqn:Hl; [|done].
    intros [= <-]. constructor; [done|by eapply IH].
Qed.

Lemma Forall2_normalised_elem_of l l' x :
  Forall2 (λ r x, validate_email r = Some x) l l' →
  x ∈ l' ↔ ∃ r, r ∈ l ∧ validate_email r = Some x.
Proof.
  induction 1 as [|r y l l' Hr _ IH].
  - split; [by intros ?%elem_of_nil|]. by intros (r & ?%elem_of_nil & _).
  - rewrite elem_of_cons, IH. split.
    + intros [->|(r' & Hr' & Hx)].
      * exists r. split; [left|done].
      * exists r'. split; [by right|done].
    + intros (r' & [->|Hr']%elem_of_cons & Hx).
      * left. congruence.
      * right. by exists r'.
Qed.

(** What a parsed request holds: validated, so normalised, addresses. *)
Lemma CreateGroup_new_inv (a : CreateGroup.kwargs) (p : CreateGroup.t) :
  CreateGroup.new a = Ok p →
  CreateGroup_wf p
  ∧ (∃ rc, CreateGroup.kw_created_by a = Some rc
           ∧ validate_email rc = Some (CreateGroup.created_by p))
  ∧ (∃ raw, CreateGroup.kw_members a = Some raw
            ∧ Forall2 (λ r x, validate_email r = Some x)
                      raw (CreateGroup.members p)).
Proof.
  unfold CreateGroup.new, required_email, required_emails, nested.
  destruct (required_str "name" _); [|by destruct (CreateGroup.kw_created_by a)
    as [rc|]; [destruct (validate_email rc)|]].
  destruct (CreateGroup.kw_created_by a) as [rc|]; [|done].
  destruct (validate_email rc) as [c|] eqn:Hc; [|done].
  destruct (CreateGroup.kw_members a) as [raw|]; [|done].
  destruct (validate_emails_from 0 raw) as [ms|] eqn:Hms; [|done].
  intros [= <-]. simpl. apply validate_emails_Forall2 in Hms.
  split; [|split; [by exists rc|by exists raw]].
  split; simpl; [by eapply validate_email_idem|].
  apply Forall_forall. intros x Hx.
  apply (Forall2_normalised_elem_of _ _ _ Hms) in Hx as (r & _ & Hr).
  by eapply validate_email_idem.
Qed.

(** X7.  Every request that parses into a payload is stored as a group.
    The members of the stored group have no duplicates and include the
    creator; they are exactly the normalised forms of the addresses the
    request lists as members or as creator, so that two texts with the same
    normalised form give one member. *)
Theorem create_group_from_request
    (a : CreateGroup.kwargs) (p : CreateGroup.t) (st : Store) :
  CreateGroup.new a = Ok p →
  ∃ g, create_group p st
       = (Ok (length st), st ++ [group_record (length st) g])
     ∧ NoDup (Group.members g)
     ∧ Group.created_by g ∈ Group.members g
     ∧ ∀ x, x ∈ Group.members g
            ↔ ∃ r, (CreateGroup.kw_created_by a = Some r
                    ∨ ∃ raw, CreateGroup.kw_members a = Some raw ∧ r ∈ raw)
                   ∧ validate_email r = Some x.
Proof.
  intros (Hwf & (rc & Hrc & Hc) & (raw & Hraw & Hms))%CreateGroup_new_inv.
  exists (group_of p). split; [by apply create_group_accepts|].
  simpl. split; [|split].
  - rewrite normalize_members_eq. apply NoDup_dedup_first.
  - apply elem_of_normalize_members. by right.
  - intros x. rewrite elem_of_normalize_members.
    rewrite (Forall2_normalised_elem_of _ _ _ Hms). split.
    + intros [(r & Hr & Hx)| ->].
      * exists r. split; [right; by exists raw|done].
      * exists rc. split; [by left|done].
    + intros (r & [Hr|(raw' & Hraw' & Hr)] & Hx).
      * right. congruence.
      * left. exists r. split; [congruence|done].
Qed.

(** X10.  [create_group] raises no [HTTPException]; when the construction
    of the [Group] fails nothing is stored; when it succeeds one record is
    added, for a group with the name, the default currency and the image of
    the payload. *)
Theorem create_group_outcomes (p : CreateGroup.t) (st : Store) :
  match create_group p st with
  | (Err (HTTPException _ _), _) => False
  | (Err (ValidationError es), st') => st' = st
  | (Ok gid, st') =>
      ∃ g, st' = st ++ [group_record gid g]
           ∧ Group.name g = CreateGroup.name p
           ∧ Group.default_currency g = CreateGroup.default_currency p
           ∧ Group.image_url g = CreateGroup.image_url p
  end.
Proof.
  unfold create_group, mbind, M_bind, Group.new, required_emails,
    required_email.
  cbn [Group.kw_name Group.kw_created_by Group.kw_members
       Group.kw_default_currency Group.kw_image_url required_str].
  destruct (validate_email (CreateGroup.created_by p)) as [c|];
    destruct (validate_emails_from 0
                (normalize_members (CreateGroup.created_by p)
                   (CreateGroup.members p))) as [ms|];
    simpl; try done.
  eexists. by split.
Qed.

End group_requests.

Lemma create_group_from_request_witness :
  @CreateGroup.new example_validator group_request = Ok payload_group
  ∧ ∃ g, @create_group example_validator payload_group []
         = (Ok 0, [] ++ [group_record 0 g])
       ∧ NoDup (Group.members g)
       ∧ Group.created_by g ∈ Group.members g
       ∧ ∀ x, x ∈ Group.members g
              ↔ ∃ r, (CreateGroup.kw_created_by group_request = Some r
                      ∨ ∃ raw, CreateGroup.kw_members group_request = Some raw
                               ∧ r ∈ raw)
                     ∧ @validate_email example_validator r = Some x.
Proof.
  split; [reflexivity|].
  exact (@create_group_from_request example_validator group_request
           payload_group [] eq_refl).
Defined.

(** ** The member list *)

Section member_list.
Implicit Types (l ms : list string) (x c : string).

Lemma dedup_first_NoDup l : NoDup l → dedup_first l = l.
Proof.
  induction 1 as [|x l Hx _ IH]; simpl; [done|].
  rewrite IH. f_equal. apply filter_all. by intros y Hy ->.
Qed.

Lemma dedup_first_snoc l c :
  dedup_first (l ++ [c])
  = dedup_first l ++ (if decide (c ∈ l) then [] else [c]).
Proof.
  induction l as [|x l IH]; cbn [dedup_first app].
  - destruct (decide (c ∈ [])) as [?%elem_of_nil|]; done.
  - rewrite IH, filter_app. cbn [app]. f_equal. f_equal.
    destruct (decide (c ∈ l)) as [Hin|Hnin].
    + by rewrite decide_True by (by right).
    + destruct (decide (c = x)) as [->|Hne].
      * rewrite decide_True by left. by rewrite filter_cons_False by naive_solver.
      * rewrite decide_False by (intros [?|?]%elem_of_cons; done).
        by rewrite filter_cons_True.
Qed.

Lemma normalize_members_snoc c ms :
  normalize_members c ms
  = dedup_first ms ++ (if decide (c ∈ ms) then [] else [c]).
Proof. by rewrite normalize_members_eq, dedup_first_snoc. Qed.

Lemma normalize_members_keeps_member c ms :
  NoDup ms → c ∈ ms → normalize_members c ms = ms.
Proof.
  intros Hnd Hc.
  by rewrite normalize_members_snoc, decide_True, app_nil_r, dedup_first_NoDup.
Qed.

(** X8.  A creator who is already among the members keeps the place of the
    first occurrence and is not appended; a creator who is not is appended
    last.  Members listed without repetition keep their places. *)
Theorem normalize_members_creator_place c ms :
  normalize_members c ms
  = dedup_first ms ++ (if decide (c ∈ ms) then [] else [c])
  ∧ (NoDup ms → c ∉ ms → normalize_members c ms = ms ++ [c])
  ∧ (NoDup ms → c ∈ ms → normalize_members c ms = ms)
  ∧ normalize_members c [] = [c].
Proof.
  split; [apply normalize_members_snoc|]. split; [|split; [|done]].
  - intros Hnd Hc.
    by rewrite normalize_members_snoc, decide_False, dedup_first_NoDup.
  - apply normalize_members_keeps_member.
Qed.

(** X9.  Normalising a normalised member list changes nothing, and the list
    has at least one member and at most one more than the members given. *)
Theorem normalize_members_idempotent c ms :
  normalize_members c (normalize_members c ms) = normalize_members c ms
  ∧ (1 ≤ length (normalize_members c ms) ≤ length ms + 1)%nat.
Proof.
  split.
  - apply normalize_members_keeps_member.
    + rewrite normalize_members_eq. apply NoDup_dedup_first.
    + apply elem_of_normalize_members. by right.
  - split.
    + assert (c ∈ normalize_members c ms) as Hc
        by (apply elem_of_normalize_members; by right).
      destruct (normalize_members c ms); [by apply elem_of_nil in Hc|].
      simpl. lia.
    + rewrite normalize_members_eq.
      etrans; [apply sublist_length, dedup_first_sublist|].
      rewrite length_app. simpl. lia.
Qed.

End member_list.

(** ** Serializing again, and serializing lists *)

Section serialization_more.
Variable str : value → string.
Variable isoformat : datetime → string.
Implicit Types (h : gmap nat (gmap string value)) (m : gmap string value).

Lemma textual_idem (v : value) :
  textual isoformat (textual isoformat v) = textual isoformat v.
Proof. by destruct v. Qed.

Lemma serialized_empty : serialized str isoformat ∅ = ∅.
Proof.
  unfold serialized. rewrite lookup_empty. simpl.
  by rewrite delete_empty, fmap_empty.
Qed.

Lemma serialized_idem m :
  serialized str isoformat (serialized str isoformat m)
  = serialized str isoformat m.
Proof.
  unfold serialized at 1.
  rewrite (serialized_lookup_id_field str isoformat m). simpl.
  rewrite delete_id by apply serialized_lookup_id_field.
  unfold serialized. rewrite <-map_fmap_compose.
  apply map_fmap_ext. intros k v _. apply textual_idem.
Qed.

(** The content of the result, in both cases of the run. *)
Lemma serialize_doc_content (a : nat) h :
  ∃ b h', serialize_doc str isoformat (Some a) h = (Ok (Some b), h')
          ∧ h' !!! b = serialized str isoformat (h !!! a)
          ∧ h ⊆ h'
          ∧ (is_Some (h !! a) → is_Some (h' !! b)).
Proof.
  rewrite serialize_doc_run.
  destruct (decide (size (h !!! a) = 0)) as [Hz|Hnz].
  - exists a, h. split; [done|].
    apply map_size_empty_inv in Hz. by rewrite Hz, serialized_empty.
  - eexists _, _. split; [done|]. rewrite lookup_total_insert_eq.
    split; [done|]. split.
    + apply insert_subseteq, not_elem_of_dom, is_fresh.
    + intros _. rewrite lookup_insert_eq. by eexists.
Qed.

(** X11.  Serializing the result of a serialization gives a document with
    the same items: there is no [_id] and no datetime left to rewrite. *)
Theorem serialize_doc_twice (a : nat) h :
  ∃ b h1 c h2,
    serialize_doc str isoformat (Some a) h = (Ok (Some b), h1)
    ∧ serialize_doc str isoformat (Some b) h1 = (Ok (Some c), h2)
    ∧ h2 !!! c = h1 !!! b
    ∧ h1 !!! b = serialized str isoformat (h !!! a).
Proof.
  destruct (serialize_doc_content a h) as (b & h1 & Hrun1 & Hb & _).
  destruct (serialize_doc_content b h1) as (c & h2 & Hrun2 & Hc & _).
  exists b, h1, c, h2. repeat split; try done.
  by rewrite Hc, Hb, serialized_idem.
Qed.

(** X12.  The result is the argument itself, not a copy, exactly when the
    document is empty; the heap is then left as it was. *)
Theorem serialize_doc_returns_argument_iff_empty (a : nat) h m :
  h !! a = Some m →
  ((serialize_doc str isoformat (Some a) h).1 = Ok (Some a) ↔ m = ∅)
  ∧ (m = ∅ → (serialize_doc str isoformat (Some a) h).2 = h).
Proof.
  intros Ha. rewrite serialize_doc_run, lookup_total_alt, Ha. simpl.
  destruct (decide (size m = 0)) as [Hz|Hnz]; simpl.
  - apply map_size_empty_inv in Hz. split; [by split|done].
  - split; [|by intros ->].
    split; [|by intros ->]. intros [= Heq].
    destruct (is_fresh (dom h)). rewrite Heq. apply elem_of_dom. by exists m.
Qed.



Section listing_handlers.
Variable get_documents :
  string → gmap string value → M (gmap nat (gmap string value)) (list nat).



End listing_handlers.
End serialization_more.

Lemma serialize_doc_returns_argument_iff_empty_witness :
  example_heap !! 0 = Some example_doc
  ∧ ((serialize_doc example_str example_isoformat (Some 0) example_heap).1
     = Ok (Some 0) ↔ example_doc = ∅).
Proof.
  assert (example_heap !! 0 = Some example_doc) as Hdoc by reflexivity.
  split; [exact Hdoc|].
  exact (proj1 (serialize_doc_returns_argument_iff_empty example_str
                  example_isoformat 0 example_heap example_doc Hdoc)).
Defined.



(** ** Expenses from requests *)

Section expense_requests.
Context `{EmailValidator}.

Lemma validate_list_Forall2 (i : nat) (l : list SplitItem.input)
    (ss : list SplitItem.t) :
  SplitItem.validate_list_from i l = Ok ss →
  Forall2 (λ x s, SplitItem.validate x = Ok s) l ss.
Proof.
  revert i ss. induction l as [|x l IH]; intros i ss; simpl.
  - intros [= <-]. constructor.
  - destruct (SplitItem.validate x) as [s|] eqn:Hx; [|done].
    destruct (SplitItem.validate_list_from (S i) l) as [ss'|] eqn:Hl; [|done].
    intros [= <-]. constructor; [done|by eapply IH].
Qed.

(** X15.  A request that parses into a payload with a positive amount is
    stored as an expense that holds what the request holds: its group,
    description, amount and notes, the currency or USD when none is given,
    the normalised address of the payer, and one split for each split of
    the request, in order, as its validation gives it.  The date is the
    exception: the stored expense has none. *)
Theorem create_expense_from_request
    (a : CreateExpense.kwargs) (p : CreateExpense.t) (st : Store) :
  CreateExpense.new a = Ok p →
  (∀ l, CreateExpense.kw_splits a = Some l → Forall input_wf l) →
  (0 <? CreateExpense.amount p)%float = true →
  ∃ e, create_expense p st
       = (Ok (length st), st ++ [expense_record (length st) e])
     ∧ CreateExpense.kw_group_id a = Some (Expense.group_id e)
     ∧ CreateExpense.kw_description a = Some (Expense.description e)
     ∧ CreateExpense.kw_amount a = Some (Expense.amount e)
     ∧ Expense.currency e = default "USD" (CreateExpense.kw_currency a)
     ∧ (∃ r, CreateExpense.kw_paid_by a = Some r
             ∧ validate_email r = Some (Expense.paid_by e))
     ∧ Expense.date e = None
     ∧ Expense.notes e = CreateExpense.kw_notes a
     ∧ ∃ l, CreateExpense.kw_splits a = Some l
            ∧ Forall2 (λ x s, SplitItem.validate x = Ok s)
                      l (Expense.splits e).
Proof.
  intros Hnew Hl Hgt.
  pose proof (CreateExpense_new_wf a p Hl Hnew) as Hwf.
  exists (expense_of p). split; [by apply create_expense_accepts|].
  revert Hnew. unfold CreateExpense.new, required_str, required_float,
    required_email, CreateExpense.required_splits, nested,
    SplitItem.validate_list.
  destruct (CreateExpense.kw_group_id a) as [g|];
    destruct (CreateExpense.kw_description a) as [d|];
    destruct (CreateExpense.kw_amount a) as [x|];
    (destruct (CreateExpense.kw_paid_by a) as [r|];
     [destruct (validate_email r) as [r'|] eqn:Hr|]);
    (destruct (CreateExpense.kw_splits a) as [l|];
     [destruct (SplitItem.validate_list_from 0 l) as [ss|] eqn:Hss|]);
    simpl; try done.
  intros [= <-]. simpl. repeat split; try done.
  - by exists r.
  - exists l. split; [done|]. by eapply validate_list_Forall2.
Qed.

End expense_requests.

Lemma create_expense_from_request_witness :
  @CreateExpense.new example_validator request_exact_10_of_100
  = Ok payload_exact_10_of_100
  ∧ ∃ e, @create_expense example_validator payload_exact_10_of_100 []
         = (Ok 0, [] ++ [expense_record 0 e])
       ∧ Expense.currency e = "USD"
       ∧ Expense.date e = None.
Proof.
  split; [reflexivity|].
  destruct (@create_expense_from_request example_validator
              request_exact_10_of_100 payload_exact_10_of_100 [] eq_refl)
    as (e & Hrun & _ & _ & _ & Hcur & _ & Hdate & _).
  - intros l [= <-]. repeat constructor.
  - reflexivity.
  - exists e. by repeat split.
Defined.
